(** * Ambition gaps: the helper functions of [notebooks/utils.py]

    A shallow embedding of the six helpers of [utils.py] and of the
    properties stated about them.

    - Python exceptions are an error monad [py]: a computation either
      returns a value or raises an exception of type [exn].
    - Years are Python [int]s, modelled as [Z].  Emission amounts and
      percentages are Python numbers: the code is written once over
      the interface [Number] and read at two instances, [float]
      (IEEE 754 binary64, Python's [float]) and [Fraction] (exact
      rationals, Python's [fractions.Fraction]).  An [int] given where
      an amount is expected takes part in the arithmetic through its
      conversion to [float], which is exact below [2^53].
    - Tables are lists of labelled rows, the columns being the fields
      of a row; the external client is a record of functions whose
      calls either return or raise. *)

From Stdlib Require Import ZArith List String Bool Lia.
From Stdlib Require Import QArith Qcanon Field.
From Stdlib Require Import SpecFloat.
From Stdlib Require Import Sorted Permutation.
Import ListNotations.

Local Open Scope Z_scope.

(** ** Exceptions and the error monad *)

Inductive exn : Type :=
| AttributeError
| KeyError
| ValueError
| ZeroDivisionError
| OverflowError
| OtherError (name : string).

Inductive py (A : Type) : Type :=
| Return (a : A)
| Raise (e : exn).

Arguments Return {A} a.
Arguments Raise {A} e.

Definition bind {A B : Type} (c : py A) (k : A -> py B) : py B :=
  match c with
  | Return a => k a
  | Raise e => Raise e
  end.

(** [try: c  except <handled>: handler]: an exception that [handled]
    selects is replaced by what the handler does, any other one
    propagates. *)
Definition try_except {A : Type} (c : py A) (handled : exn -> bool)
    (handler : exn -> py A) : py A :=
  match c with
  | Return a => Return a
  | Raise e => if handled e then handler e else Raise e
  end.

Declare Scope py_scope.
Delimit Scope py_scope with py.
Notation "x <- c ;; k" := (bind c (fun x => k))
  (at level 61, c at next level, right associativity) : py_scope.

(** ** Numbers *)

(** What the arithmetic of [utils.py] asks of an amount: the four
    operators, and the conversion of the [int] operand of a mixed
    operation. *)
Class Number (F : Type) : Type := {
  of_int : Z -> py F;
  add : F -> F -> F;
  sub : F -> F -> F;
  mul : F -> F -> F;
  truediv : F -> F -> py F
}.

Section MixedArithmetic.
Context {F : Type} `{Number F}.
Local Open Scope py_scope.

(** [x / n], [n - x] and [x * n] with [n] an [int]. *)
Definition truediv_int (x : F) (n : Z) : py F :=
  y <- of_int n ;; truediv x y.

Definition int_sub (n : Z) (x : F) : py F :=
  y <- of_int n ;; Return (sub y x).

Definition mul_int (x : F) (n : Z) : py F :=
  y <- of_int n ;; Return (mul x y).

End MixedArithmetic.

(** *** binary64 *)

Definition float : Type := spec_float.

Definition prec : Z := 53.
Definition emax : Z := 1024.

Declare Scope b64_scope.
Delimit Scope b64_scope with b64.
Infix "+" := (SFadd prec emax) : b64_scope.
Infix "-" := (SFsub prec emax) : b64_scope.
Infix "*" := (SFmul prec emax) : b64_scope.
Infix "/" := (SFdiv prec emax) : b64_scope.

Definition is_zero (x : float) : bool :=
  match x with
  | S754_zero _ => true
  | _ => false
  end.

(** The binary64 nearest to an integer, ties to even; an infinity
    beyond the range. *)
Definition lit (n : Z) : float := binary_normalize prec emax n 0 false.

(** [float(n)] raises where the nearest binary64 is not finite. *)
Definition float_of_int (n : Z) : py float :=
  match lit n with
  | S754_infinity _ => Raise OverflowError
  | x => Return x
  end.

(** [x / y] on floats raises on a zero divisor of either sign and is
    the IEEE quotient otherwise. *)
Definition float_truediv (x y : float) : py float :=
  if is_zero y then Raise ZeroDivisionError
  else Return (x / y)%b64.

#[export] Instance float_Number : Number float := {
  of_int := float_of_int;
  add := SFadd prec emax;
  sub := SFsub prec emax;
  mul := SFmul prec emax;
  truediv := float_truediv
}.

(** *** Exact rationals *)

Definition Fraction : Type := Qc.

Definition Fraction_of_int (n : Z) : Fraction := Q2Qc (inject_Z n).

Definition Fraction_truediv (x y : Fraction) : py Fraction :=
  if Qc_eq_dec y 0%Qc then Raise ZeroDivisionError
  else Return (x / y)%Qc.

#[export] Instance Fraction_Number : Number Fraction := {
  of_int := fun n => Return (Fraction_of_int n);
  add := Qcplus;
  sub := Qcminus;
  mul := Qcmult;
  truediv := Fraction_truediv
}.

(** ** The target mathematics *)

Section TargetMath.
Context {F : Type} `{Number F}.
Local Open Scope py_scope.

(** The dictionary [linear_equation] returns, with its closure. *)
Record linear_result : Type := {
  slope : F;
  intercept : F;
  target_emissions : F;
  equation : Z -> py F
}.

Definition linear_equation (baseline_year : Z) (baseline_emissions : F)
    (target_percent : F) (target_year : Z) : py linear_result :=
  target_decimal <- truediv_int target_percent 100 ;;
  remaining <- int_sub 1 target_decimal ;;
  let target_emissions := mul baseline_emissions remaining in
  let d_emission := sub target_emissions baseline_emissions in
  let d_year := target_year - baseline_year in
  slope <- truediv_int d_emission d_year ;;
  at_baseline <- mul_int slope baseline_year ;;
  let intercept := sub baseline_emissions at_baseline in
  let equation := fun YEAR : Z =>
    at_year <- mul_int slope YEAR ;; Return (add at_year intercept) in
  Return {| slope := slope; intercept := intercept;
            target_emissions := target_emissions; equation := equation |}.

(** The four arguments travel to [linear_equation] by keyword, through
    [INPUTS_DICT]. *)
Definition scaled_emissions (baseline_year : Z) (baseline_emissions : F)
    (target_percent : F) (target_year : Z) (scale_year : Z) : py F :=
  le <- linear_equation baseline_year baseline_emissions target_percent
          target_year ;;
  equation le scale_year.

End TargetMath.

Arguments linear_result F : clear implicits.

(** ** Tables *)

(** A table is the list of its rows in order, each with its index
    label. *)
Definition DataFrame (R : Type) : Type := list (Z * R).
Definition Series (A : Type) : Type := list (Z * A).

Section TableEngine.
Context {R : Type}.

(** [df.loc[mask]] and [series[mask]]: the rows the mask selects,
    labels kept. *)
Definition loc_rows (mask : R -> bool) (df : DataFrame R) : DataFrame R :=
  filter (fun ir => mask (snd ir)) df.

(** [df.loc[:, cols]] and [df[col]]: a projection of every row. *)
Definition loc_cols {S : Type} (cols : R -> S) (df : DataFrame R)
    : DataFrame S :=
  map (fun ir => (fst ir, cols (snd ir))) df.

(** [df.reset_index(drop=True)]: the labels become 0, 1, 2, ... *)
Definition reset_index (df : DataFrame R) : DataFrame R :=
  combine (map Z.of_nat (seq 0 (List.length df))) (map snd df).

(** [pd.concat(dfs)]: the rows of each table in turn, labels kept. *)
Definition pd_concat (dfs : list (DataFrame R)) : DataFrame R :=
  List.concat dfs.

(** [series.item()]: the only element, or [ValueError]. *)
Definition item (s : Series R) : py R :=
  match s with
  | [(_, a)] => Return a
  | _ => Raise ValueError
  end.

(** [df.drop_duplicates()]: of the rows with equal values the first
    is kept, whatever the labels. *)
Variable R_eq_dec : forall a b : R, {a = b} + {a <> b}.

Fixpoint drop_duplicates (df : DataFrame R) : DataFrame R :=
  match df with
  | [] => []
  | ir :: rest =>
      ir :: filter (fun jr => if R_eq_dec (snd jr) (snd ir) then false else true)
              (drop_duplicates rest)
  end.

End TableEngine.

(** A cell of a column the client fills: missing, a number or text. *)
Inductive cell : Type :=
| NaN
| Int (z : Z)
| Str (s : string).

Definition cell_eq_dec (a b : cell) : {a = b} + {a <> b}.
Proof. decide equality; [apply Z.eq_dec | apply string_dec]. Defined.

(** [a == b] on cells: a missing value equals nothing, a number never
    equals a text. *)
Definition cell_eqb (a b : cell) : bool :=
  match a, b with
  | Int x, Int y => x =? y
  | Str s, Str t => String.eqb s t
  | _, _ => false
  end.

(** The smaller of two cells in a reduction that skips missing
    values; a number and a text do not compare. *)
Definition cell_min2 (a b : cell) : py cell :=
  match a, b with
  | Int x, Int y => Return (Int (Z.min x y))
  | Str s, Str t => Return (if String.leb s t then Str s else Str t)
  | NaN, c | c, NaN => Return c
  | _, _ => Raise (OtherError "TypeError")
  end.

(** [series.min()]; the minimum of nothing is missing. *)
Fixpoint series_min (s : Series cell) : py cell :=
  match s with
  | [] => Return NaN
  | (_, c) :: rest => bind (series_min rest) (cell_min2 c)
  end.

Module Actor.

(** A row of [parts] or [search]: the two columns used, and the
    others. *)
Record row : Type := {
  name : string;
  actor_id : string;
  others : list (string * string)
}.

(** A row of the columns [['name', 'actor_id']]. *)
Record name_id : Type := {
  sel_name : string;
  sel_actor_id : string
}.

Definition select (r : row) : name_id :=
  {| sel_name := name r; sel_actor_id := actor_id r |}.

End Actor.

Module Target.

Record row : Type := {
  actor_id : cell;
  target_type : cell;
  baseline_year : cell;
  target_year : cell;
  target_value : cell;
  target_unit : cell;
  datasource_id : cell
}.

(** The six columns kept of the client's answer. *)
Record selected : Type := {
  sel_actor_id : cell;
  sel_baseline_year : cell;
  sel_target_year : cell;
  sel_target_value : cell;
  sel_target_unit : cell;
  sel_datasource_id : cell
}.

Definition select (r : row) : selected :=
  {| sel_actor_id := actor_id r;
     sel_baseline_year := baseline_year r;
     sel_target_year := target_year r;
     sel_target_value := target_value r;
     sel_target_unit := target_unit r;
     sel_datasource_id := datasource_id r |}.

(** A row of the columns [cols_out]. *)
Record out : Type := {
  out_actor_id : cell;
  out_baseline_year : cell;
  out_target_year : cell;
  out_target_value : cell;
  out_target_unit : cell
}.

Definition cols_out (r : selected) : out :=
  {| out_actor_id := sel_actor_id r;
     out_baseline_year := sel_baseline_year r;
     out_target_year := sel_target_year r;
     out_target_value := sel_target_value r;
     out_target_unit := sel_target_unit r |}.

Definition out_eq_dec (a b : out) : {a = b} + {a <> b}.
Proof. decide equality; apply cell_eq_dec. Defined.

End Target.

Module Emissions.

Record row (F : Type) : Type := {
  actor_id : string;
  year : Z;
  total_emissions : F;
  datasource_id : string
}.

Arguments actor_id {F} r.
Arguments year {F} r.
Arguments total_emissions {F} r.
Arguments datasource_id {F} r.

End Emissions.

(** ** The external client *)

(** What [oc.Client()] offers; each call returns a table or raises.
    [targets] is called with [ignore_warnings=True]; [jupyter] is the
    property read for its effect.  What [emissions] returns is handed
    on as it is, so its value is kept whole: a table or [None]. *)
Record Client : Type := {
  parts : string -> string -> py (DataFrame Actor.row);
  search : string -> py (DataFrame Actor.row);
  targets : string -> py (DataFrame Target.row);
  jupyter : py unit;
  emissions : string -> string
              -> py (option (DataFrame (Emissions.row float)))
}.

(** ** The lookup functions *)

Section Lookups.
Variable oc : Client.
Local Open Scope py_scope.
Local Open Scope string_scope.

(** The [try] block of [actor_parts]. *)
Definition actor_parts_try (actor_id part_type : string)
    : py (DataFrame Actor.name_id) :=
  df_parts <-
    (found <- parts oc actor_id part_type ;;
     Return (reset_index (loc_cols Actor.select found))) ;;
  df_actor <-
    (found <- search oc actor_id ;;
     Return (loc_cols Actor.select
               (loc_rows (fun x => String.eqb (Actor.actor_id x) actor_id)
                  found))) ;;
  Return (pd_concat [df_actor; df_parts]).

Definition not_found_message (actor_id : string) : string :=
  "ERROR: " ++ actor_id ++ " not found".

Definition no_parts_message (actor_id part_type : string) : string :=
  actor_id ++ " does not have any " ++ part_type ++ " types".

(** [actor_parts] gives what it printed and its value; after a
    handled exception the function runs to its end, which returns
    [None]. *)
Definition actor_parts (actor_id part_type : string)
    : py (list string * option (DataFrame Actor.name_id)) :=
  try_except
    (df <- actor_parts_try actor_id part_type ;; Return ([], Some df))
    (fun e => match e with
              | AttributeError | KeyError => true
              | _ => false
              end)
    (fun e => match e with
              | AttributeError =>
                  Return ([not_found_message actor_id], None)
              | _ =>
                  Return ([no_parts_message actor_id part_type], None)
              end).

Definition part_type_default : string := "adm1".

Definition absolute_emission_reduction : string :=
  "Absolute emission reduction".

(** The [try] block of [get_target]. *)
Definition get_target_try (actor_id : string) (year : Z)
    : py (DataFrame Target.out) :=
  found <- targets oc actor_id ;;
  let part_targets :=
    loc_cols Target.select
      (loc_rows
         (fun x => cell_eqb (Target.target_type x)
                     (Str absolute_emission_reduction))
         found) in
  closest_target <-
    series_min
      (loc_rows (fun c => cell_eqb c (Int year))
         (loc_cols Target.sel_target_year part_targets)) ;;
  let target :=
    drop_duplicates Target.out_eq_dec
      (loc_cols Target.cols_out
         (loc_rows
            (fun x => cell_eqb (Target.sel_target_year x) closest_target)
            part_targets)) in
  Return target.

(** The bare [except] turns every exception into [None]; [data_id] is
    not used. *)
Definition get_target (actor_id : string) (year : Z)
    (data_id : option string) : option (DataFrame Target.out) :=
  match get_target_try actor_id year with
  | Return target => Some target
  | Raise _ => None
  end.

Definition year_default : Z := 2030.

(** [client.jupyter] is read before the [try]; inside it the value of
    the [emissions] call is returned as the client gave it. *)
Definition get_emissions (actor_id datasource_id : string)
    : py (option (DataFrame (Emissions.row float))) :=
  _ <- jupyter oc ;;
  try_except
    (emissions oc actor_id datasource_id)
    (fun e => match e with ValueError => true | _ => false end)
    (fun _ => Return None).

End Lookups.

(** ** The AR6 range *)

Module Ipcc.

(** The dictionary [ipcc_range] returns. *)
Record dict (F : Type) : Type := {
  baseline_year : Z;
  target_value_1_5C : F;
  target_emissions_1_5C : F;
  target_value_2_0C : F;
  target_emissions_2_0C : F
}.

Arguments baseline_year {F} d.
Arguments target_value_1_5C {F} d.
Arguments target_emissions_1_5C {F} d.
Arguments target_value_2_0C {F} d.
Arguments target_emissions_2_0C {F} d.

End Ipcc.

Section IpccRange.
Context {F : Type} `{Number F}.
Local Open Scope py_scope.

Definition ipcc_range (df : DataFrame (Emissions.row F))
    (actor_id : option string) (baseline_year : Z)
    (target_value15 target_value20 : F) : py (Ipcc.dict F) :=
  baseline_emissions <-
    match actor_id with
    | None =>
        item (loc_cols Emissions.total_emissions
                (loc_rows (fun x => Emissions.year x =? baseline_year) df))
    | Some actor_id =>
        item (loc_cols Emissions.total_emissions
                (loc_rows (fun x => Emissions.year x =? baseline_year)
                   (loc_rows
                      (fun x => String.eqb (Emissions.actor_id x) actor_id)
                      df)))
    end ;;
  decimal_15 <- truediv_int target_value15 100 ;;
  remaining_15 <- int_sub 1 decimal_15 ;;
  let target_15 := mul baseline_emissions remaining_15 in
  decimal_20 <- truediv_int target_value20 100 ;;
  remaining_20 <- int_sub 1 decimal_20 ;;
  let target_20 := mul baseline_emissions remaining_20 in
  Return {| Ipcc.baseline_year := baseline_year;
            Ipcc.target_value_1_5C := target_value15;
            Ipcc.target_emissions_1_5C := target_15;
            Ipcc.target_value_2_0C := target_value20;
            Ipcc.target_emissions_2_0C := target_20 |}.

End IpccRange.

(** The defaults of [ipcc_range]. *)
Definition baseline_year_default : Z := 2019.
Definition target_value15_default : Z := 43.
Definition target_value20_default : Z := 27.

(** ** Vocabulary of the properties *)

(** Years whose differences convert to [float]. *)
Definition year_bound : Z := 2 ^ 1022.

(** [float(n)] returns: the binary64 nearest to the [int] [n] is
    finite. *)
Definition converts (n : Z) : Prop := float_of_int n = Return (lit n).

(** The baseline filter: the actor when one is given, and the year. *)
Definition matches_baseline {F : Type} (actor_id : option string)
    (baseline_year : Z) (x : Emissions.row F) : bool :=
  match actor_id with
  | None => true
  | Some a => String.eqb (Emissions.actor_id x) a
  end && (Emissions.year x =? baseline_year).

Definition baseline_rows {F : Type} (df : DataFrame (Emissions.row F))
    (actor_id : option string) (baseline_year : Z)
    : DataFrame (Emissions.row F) :=
  loc_rows (matches_baseline actor_id baseline_year) df.

(** The client's records of the requested year and of type
    'Absolute emission reduction'. *)
Definition kept (found : DataFrame Target.row) (year : Z)
    : DataFrame Target.row :=
  loc_rows (fun x => cell_eqb (Target.target_type x)
                       (Str absolute_emission_reduction)
                     && cell_eqb (Target.target_year x) (Int year))
    found.

(** The exceptions [actor_parts] handles, and the line it prints for
    each. *)
Definition lookup_failure (e : exn) : Prop :=
  e = AttributeError \/ e = KeyError.

Definition printed_for (e : exn) (actor_id part_type : string) : string :=
  match e with
  | AttributeError => not_found_message actor_id
  | _ => no_parts_message actor_id part_type
  end.

(** ** Sample inputs *)

Section Samples.
Local Open Scope string_scope.

(** A table of one row. *)
Definition one_row {F : Type} (actor datasource : string) (year : Z) (x : F)
    : DataFrame (Emissions.row F) :=
  [(0, {| Emissions.actor_id := actor; Emissions.year := year;
          Emissions.total_emissions := x;
          Emissions.datasource_id := datasource |})].

(** 114.00000000000001, the binary64 next above 114
    (114 is 8022036836253696 * 2^-46). *)
Definition above_114 : float := S754_finite false 8022036836253697 (-46).

(** 19.00000000000003, eight binary64 above 19
    (19 is 5348024557502464 * 2^-48). *)
Definition above_19 : float := S754_finite false 5348024557502472 (-48).

(** 570.0000000000001, the binary64 next above 570
    (570 is 5013773022658560 * 2^-43). *)
Definition above_570 : float := S754_finite false 5013773022658561 (-43).

Definition sample_target (type : string) (year value : Z) : Target.row :=
  {| Target.actor_id := Str "CA";
     Target.target_type := Str type;
     Target.baseline_year := Int 2005;
     Target.target_year := Int year;
     Target.target_value := Int value;
     Target.target_unit := Str "percent";
     Target.datasource_id := Str "C2ES:canadian_GHG_targets" |}.

Definition sample_targets : DataFrame Target.row :=
  [(0, sample_target "Absolute emission reduction" 2030 40);
   (1, sample_target "Absolute emission reduction" 2030 40);
   (2, sample_target "Absolute emission reduction" 2050 80);
   (3, sample_target "Relative emission reduction" 2030 45)].

Definition sample_actor (name id : string) : Actor.row :=
  {| Actor.name := name; Actor.actor_id := id;
     Actor.others := [("type", "adm1")] |}.

(** A client that knows Canada. *)
Definition sample_client : Client :=
  {| parts := fun _ _ =>
       Return [(7, sample_actor "Alberta" "CA-AB");
               (9, sample_actor "Quebec" "CA-QC")];
     search := fun _ =>
       Return [(0, sample_actor "Canada" "CA");
               (1, sample_actor "Canada Bay" "AU-NSW-CB")];
     targets := fun _ => Return sample_targets;
     jupyter := Return tt;
     emissions := fun actor datasource =>
       Return (Some (one_row actor datasource 2019 (lit 200))) |}.

(** A client whose lookups raise [lookup] and whose emissions call
    raises [emission]. *)
Definition failing_client (lookup emission : exn) : Client :=
  {| parts := fun _ _ => Raise lookup;
     search := fun _ => Raise lookup;
     targets := fun _ => Raise lookup;
     jupyter := Return tt;
     emissions := fun _ _ => Raise emission |}.

(** A client that knows nothing, and a client without a network. *)
Definition empty_client : Client :=
  failing_client AttributeError ValueError.

Definition offline_client : Client :=
  failing_client (OtherError "ConnectionError") (OtherError "ConnectionError").

(** A client whose [emissions] call returns [None] and raises
    nothing. *)
Definition silent_client : Client :=
  {| parts := fun _ _ => Raise AttributeError;
     search := fun _ => Raise AttributeError;
     targets := fun _ => Raise AttributeError;
     jupyter := Return tt;
     emissions := fun _ _ => Return None |}.

End Samples.

(** ** Vocabulary of the further properties *)


(** The floats Python has: zeros, infinities, NaN and the finite
    floats of canonical mantissa and exponent. *)
Definition valid_float (x : float) : Prop :=
  valid_binary prec emax x = true.

(** Neither an infinity nor NaN, as [math.isfinite] tells. *)
Definition is_finite (x : float) : bool :=
  match x with
  | S754_zero _ | S754_finite _ _ _ => true
  | S754_infinity _ | S754_nan => false
  end.

Section MoreSamples.
Local Open Scope string_scope.

(** A client whose [jupyter] property cannot be read. *)
Definition no_jupyter_client : Client :=
  {| parts := fun _ _ => Raise AttributeError;
     search := fun _ => Raise AttributeError;
     targets := fun _ => Raise AttributeError;
     jupyter := Raise ValueError;
     emissions := fun actor datasource =>
       Return (Some (one_row actor datasource 2019 (lit 200))) |}.

(** Two actors of one year, in the two orders. *)
Definition two_actors {F : Type} (x y : F) : DataFrame (Emissions.row F) :=
  (one_row "CA" "UNFCCC" 2019 x ++ one_row "US" "UNFCCC" 2019 y)%list.

Definition two_actors_swapped {F : Type} (x y : F)
    : DataFrame (Emissions.row F) :=
  (one_row "US" "UNFCCC" 2019 y ++ one_row "CA" "UNFCCC" 2019 x)%list.

End MoreSamples.

(** * Properties *)

(** ** Conversion of an [int] to binary64

    [lit] goes through the rounding of [SpecFloat]; the lemmas below
    follow a positive mantissa through its two normalisation steps. *)

Lemma digits2_pos_lower (p : positive) :
  2 ^ (Zpos (digits2_pos p) - 1) <= Zpos p.
Proof.
  induction p as [p IH | p IH | ]; simpl digits2_pos.
  - rewrite Pos2Z.inj_succ.
    replace (Z.succ (Zpos (digits2_pos p)) - 1) with (Z.succ (Zpos (digits2_pos p) - 1)) by lia.
    rewrite Z.pow_succ_r by lia. lia.
  - rewrite Pos2Z.inj_succ.
    replace (Z.succ (Zpos (digits2_pos p)) - 1) with (Z.succ (Zpos (digits2_pos p) - 1)) by lia.
    rewrite Z.pow_succ_r by lia. lia.
  - simpl. lia.
Qed.

Lemma digits2_pos_upper (p : positive) :
  Zpos p < 2 ^ Zpos (digits2_pos p).
Proof.
  induction p as [p IH | p IH | ]; simpl digits2_pos.
  - rewrite Pos2Z.inj_succ, Z.pow_succ_r by lia. lia.
  - rewrite Pos2Z.inj_succ, Z.pow_succ_r by lia. lia.
  - simpl. lia.
Qed.

Lemma digits2_pos_le (p : positive) (k : Z) :
  0 <= k -> Zpos p < 2 ^ k -> Zpos (digits2_pos p) <= k.
Proof.
  intros Hk Hp. pose proof (digits2_pos_lower p) as Hlow.
  assert (Hlt : 2 ^ (Zpos (digits2_pos p) - 1) < 2 ^ k) by lia.
  apply Z.pow_lt_mono_r_iff in Hlt; lia.
Qed.

Lemma shr_1_m (mrs : shr_record) :
  0 <= shr_m mrs -> shr_m (shr_1 mrs) = shr_m mrs / 2.
Proof.
  destruct mrs as [m r s]; simpl. intros Hm.
  destruct m as [ | p | p ]; try lia.
  - reflexivity.
  - destruct p as [p | p | ]; simpl shr_m.
    + rewrite Pos2Z.inj_xI. apply Z.div_unique with 1; lia.
    + rewrite Pos2Z.inj_xO. apply Z.div_unique with 0; lia.
    + reflexivity.
Qed.

Lemma iter_shr_1_m (n : positive) : forall mrs,
  0 <= shr_m mrs ->
  shr_m (iter_pos shr_1 n mrs) = shr_m mrs / 2 ^ Zpos n.
Proof.
  induction n as [n IH | n IH | ]; intros mrs Hm; simpl iter_pos.
  - assert (H1 : 0 <= shr_m (shr_1 mrs)) by (rewrite shr_1_m by assumption; apply Z.div_pos; lia).
    assert (H2 : 0 <= shr_m (iter_pos shr_1 n (shr_1 mrs)))
      by (rewrite IH by assumption; apply Z.div_pos; [assumption | apply Z.pow_pos_nonneg; lia]).
    rewrite IH, IH, shr_1_m by assumption.
    rewrite !Z.div_div by (try apply Z.pow_pos_nonneg; lia).
    f_equal. rewrite <- Z.pow_add_r, <- Z.pow_succ_r by lia.
    f_equal. lia.
  - assert (H2 : 0 <= shr_m (iter_pos shr_1 n mrs))
      by (rewrite IH by assumption; apply Z.div_pos; [assumption | apply Z.pow_pos_nonneg; lia]).
    rewrite IH, IH by assumption.
    rewrite Z.div_div by (try apply Z.pow_pos_nonneg; lia).
    f_equal. rewrite <- Z.pow_add_r by lia.
    f_equal. lia.
  - rewrite shr_1_m by assumption. reflexivity.
Qed.

Lemma shr_record_of_loc_m m l : shr_m (shr_record_of_loc m l) = m.
Proof. destruct l as [ | [ | | ]]; reflexivity. Qed.

(** Away from the subnormal range, [shr_fexp] drops the digits beyond
    the first [prec]. *)
Lemma shr_fexp_normal (m : positive) (e : Z) (l : location) :
  emin prec emax <= Zpos (digits2_pos m) + e - prec ->
  let excess := Z.max 0 (Zpos (digits2_pos m) - prec) in
  shr_m (fst (shr_fexp prec emax (Zpos m) e l)) = Zpos m / 2 ^ excess /\
  snd (shr_fexp prec emax (Zpos m) e l) = e + excess.
Proof.
  intros Hrange excess. unfold shr_fexp, fexp. simpl Zdigits2.
  rewrite Z.max_l by lia.
  replace (Zpos (digits2_pos m) + e - prec - e)
    with (Zpos (digits2_pos m) - prec) by lia.
  subst excess. unfold shr.
  destruct (Zpos (digits2_pos m) - prec) as [ | n | n ]; simpl fst; simpl snd.
  - rewrite shr_record_of_loc_m, Z.div_1_r. lia.
  - rewrite iter_shr_1_m by (rewrite shr_record_of_loc_m; lia).
    rewrite shr_record_of_loc_m. split; [reflexivity | lia].
  - rewrite shr_record_of_loc_m. rewrite Z.max_l by lia.
    rewrite Z.div_1_r. lia.
Qed.

Lemma shr_fexp_bounds (m : positive) (e : Z) (l : location) :
  emin prec emax <= Zpos (digits2_pos m) + e - prec ->
  0 < shr_m (fst (shr_fexp prec emax (Zpos m) e l)) < 2 ^ prec.
Proof.
  intros Hrange.
  destruct (shr_fexp_normal m e l Hrange) as [Hm _]. rewrite Hm. clear Hm.
  pose proof (digits2_pos_lower m) as Hlow.
  pose proof (digits2_pos_upper m) as Hup.
  set (d := Zpos (digits2_pos m)) in *.
  assert (Hd : 1 <= d) by (subst d; lia).
  destruct (Z.max_spec 0 (d - prec)) as [[Hlt ->] | [Hge ->]].
  - assert (Hsplit : 2 ^ d = 2 ^ prec * 2 ^ (d - prec))
      by (rewrite <- Z.pow_add_r by (unfold prec in *; lia); f_equal; lia).
    assert (Hsplit' : 2 ^ (d - 1) = 2 ^ (prec - 1) * 2 ^ (d - prec))
      by (rewrite <- Z.pow_add_r by (unfold prec in *; lia); f_equal; lia).
    assert (Hpos : 0 < 2 ^ (d - prec)) by (apply Z.pow_pos_nonneg; lia).
    assert (Hpp : 0 < 2 ^ (prec - 1)) by (apply Z.pow_pos_nonneg; unfold prec; lia).
    assert (Hq : Zpos m / 2 ^ (d - prec) < 2 ^ prec)
      by (apply Z.div_lt_upper_bound; lia).
    assert (Hq' : 2 ^ (prec - 1) <= Zpos m / 2 ^ (d - prec))
      by (apply Z.div_le_lower_bound; lia).
    lia.
  - rewrite Z.div_1_r.
    assert (2 ^ d <= 2 ^ prec) by (apply Z.pow_le_mono_r; lia).
    lia.
Qed.

Lemma round_nearest_even_bounds (m : Z) (l : location) :
  m <= round_nearest_even m l <= m + 1.
Proof.
  destruct l as [ | [ | | ]]; simpl; try lia.
  destruct (Z.even m); lia.
Qed.

(** Rounding a positive mantissa whose exponent is above the subnormal
    range gives a finite nonzero float when the exponent stays in
    range, and never a zero. *)
Lemma binary_round_aux_normal (s : bool) (m : positive) (e : Z) (l : location) :
  emin prec emax + prec - 1 <= e ->
  is_zero (binary_round_aux prec emax s (Zpos m) e l) = false /\
  (e + Z.max 0 (Zpos (digits2_pos m) - prec) + 1 <= emax - prec ->
   exists m' e', binary_round_aux prec emax s (Zpos m) e l = S754_finite s m' e').
Proof.
  intros He. unfold binary_round_aux.
  assert (Hd : 1 <= Zpos (digits2_pos m)) by lia.
  assert (Hrange : emin prec emax <= Zpos (digits2_pos m) + e - prec) by lia.
  destruct (shr_fexp_normal m e l Hrange) as [_ He1].
  pose proof (shr_fexp_bounds m e l Hrange) as Hm1.
  destruct (shr_fexp prec emax (Zpos m) e l) as [mrs1 e1]; cbn [fst snd] in Hm1, He1.
  pose proof (round_nearest_even_bounds (shr_m mrs1) (loc_of_shr_record mrs1)) as Hr.
  destruct (round_nearest_even (shr_m mrs1) (loc_of_shr_record mrs1))
    as [ | q | q ]; try lia.
  assert (Hq : 1 <= Zpos (digits2_pos q)) by lia.
  assert (Hq' : Zpos (digits2_pos q) <= prec + 1).
  { apply digits2_pos_le; [unfold prec; lia | ].
    rewrite Z.pow_add_r, Z.pow_1_r by (unfold prec; lia). lia. }
  assert (Hrange2 : emin prec emax <= Zpos (digits2_pos q) + e1 - prec) by lia.
  destruct (shr_fexp_normal q e1 loc_Exact Hrange2) as [_ He2].
  pose proof (shr_fexp_bounds q e1 loc_Exact Hrange2) as Hm2.
  destruct (shr_fexp prec emax (Zpos q) e1 loc_Exact) as [mrs2 e2]; cbn [fst snd] in Hm2, He2.
  destruct (shr_m mrs2) as [ | m2 | m2 ]; try lia.
  split.
  - destruct (e2 <=? emax - prec); reflexivity.
  - intros Hmax. exists m2, e2.
    replace (e2 <=? emax - prec) with true; [reflexivity | ].
    symmetry. apply Z.leb_le. lia.
Qed.

Lemma binary_round_int (s : bool) (m : positive) :
  is_zero (binary_round prec emax s m 0) = false /\
  (Zpos (digits2_pos m) <= emax - 1 ->
   exists m' e', binary_round prec emax s m 0 = S754_finite s m' e').
Proof.
  unfold binary_round, shl_align.
  assert (Hd : 1 <= Zpos (digits2_pos m)) by lia.
  assert (Hf : fexp prec emax (Zpos (digits2_pos m) + 0) = Zpos (digits2_pos m) - prec)
    by (unfold fexp, emin, prec, emax in *; lia).
  rewrite Hf.
  destruct (Zpos (digits2_pos m) - prec - 0) as [ | d | d ] eqn:Hsh.
  - destruct (binary_round_aux_normal s m 0 loc_Exact) as [Hz Hfin];
      [unfold emin, prec, emax; lia | ].
    split; [exact Hz | intros Hdig; apply Hfin; unfold prec, emax in *; lia].
  - destruct (binary_round_aux_normal s m 0 loc_Exact) as [Hz Hfin];
      [unfold emin, prec, emax; lia | ].
    split; [exact Hz | intros Hdig; apply Hfin; unfold prec, emax in *; lia].
  - destruct (binary_round_aux_normal s (Pos.iter xO m d) (Zpos (digits2_pos m) - prec) loc_Exact)
      as [Hz Hfin]; [unfold emin, prec, emax in *; lia | ].
    split; [exact Hz | intros Hdig; apply Hfin].
    assert (Hshift : Zpos (Pos.iter xO m d) = Zpos m * 2 ^ Zpos d).
    { clear. induction d as [ | d IH] using Pos.peano_ind.
      - simpl. lia.
      - rewrite Pos.iter_succ, Pos2Z.inj_xO, IH, Pos2Z.inj_succ, Z.pow_succ_r by lia. lia. }
    assert (Hdz : Zpos (digits2_pos (Pos.iter xO m d)) <= prec).
    { apply digits2_pos_le; [unfold prec; lia | ].
      rewrite Hshift. pose proof (digits2_pos_upper m) as Hup.
      replace prec with (Zpos (digits2_pos m) + Zpos d) by lia.
      rewrite Z.pow_add_r by lia.
      assert (0 < 2 ^ Zpos d) by (apply Z.pow_pos_nonneg; lia). nia. }
    unfold prec, emax in *. lia.
Qed.

(** An [int] other than 0 does not convert to a zero. *)
Lemma float_of_int_nonzero (n : Z) (x : float) :
  n <> 0 -> float_of_int n = Return x -> is_zero x = false.
Proof.
  intros Hn. unfold float_of_int, lit, binary_normalize.
  destruct n as [ | m | m ]; [congruence | | ].
  - destruct (binary_round_int false m) as [Hz _].
    destruct (binary_round prec emax false m 0); intros Hx;
      inversion Hx; subst; assumption || discriminate.
  - destruct (binary_round_int true m) as [Hz _].
    destruct (binary_round prec emax true m 0); intros Hx;
      inversion Hx; subst; assumption || discriminate.
Qed.

(** Below [2^1023] in magnitude every [int] converts. *)
Lemma float_of_int_in_range (n : Z) :
  Z.abs n < 2 ^ (emax - 1) -> float_of_int n = Return (lit n).
Proof.
  intros Hn. unfold float_of_int, lit, binary_normalize.
  destruct n as [ | m | m ]; [reflexivity | | ].
  - destruct (binary_round_int false m) as [_ Hfin].
    destruct Hfin as (m' & e' & ->); [ | reflexivity].
    apply digits2_pos_le; [unfold emax; lia | exact Hn].
  - destruct (binary_round_int true m) as [_ Hfin].
    destruct Hfin as (m' & e' & ->); [ | reflexivity].
    apply digits2_pos_le; [unfold emax; lia | exact Hn].
Qed.

(** ** Arithmetic of the two instances *)

Lemma year_bound_double : 2 * year_bound = 2 ^ (emax - 1).
Proof. reflexivity. Qed.

Lemma float_truediv_int_100 (p : float) :
  truediv_int p 100 = Return (p / lit 100)%b64.
Proof. reflexivity. Qed.

Lemma float_int_sub_1 (x : float) :
  int_sub 1 x = Return (lit 1 - x)%b64.
Proof. reflexivity. Qed.

Lemma float_truediv_int_0 (x : float) :
  truediv_int x 0 = Raise ZeroDivisionError.
Proof. reflexivity. Qed.

Lemma converts_in_range (n : Z) :
  Z.abs n < 2 ^ (emax - 1) -> converts n.
Proof. apply float_of_int_in_range. Qed.

Lemma float_truediv_int_converts (x : float) (n : Z) :
  n <> 0 -> converts n ->
  truediv_int x n = Return (x / lit n)%b64.
Proof.
  unfold converts. intros Hn Hconv.
  unfold truediv_int. cbn [of_int float_Number truediv].
  pose proof (float_of_int_nonzero n (lit n) Hn Hconv) as Hz.
  rewrite Hconv. cbn [bind].
  unfold float_truediv. rewrite Hz. reflexivity.
Qed.

Lemma float_mul_int_converts (x : float) (n : Z) :
  converts n -> mul_int x n = Return (x * lit n)%b64.
Proof.
  unfold converts. intros Hconv.
  unfold mul_int. cbn [of_int float_Number mul].
  rewrite Hconv. reflexivity.
Qed.

Lemma float_truediv_int (x : float) (n : Z) :
  n <> 0 -> Z.abs n < 2 ^ (emax - 1) ->
  truediv_int x n = Return (x / lit n)%b64.
Proof.
  intros Hn Hr.
  apply float_truediv_int_converts; [exact Hn | apply converts_in_range, Hr].
Qed.

Lemma float_mul_int (x : float) (n : Z) :
  Z.abs n < 2 ^ (emax - 1) ->
  mul_int x n = Return (x * lit n)%b64.
Proof.
  intros Hr. apply float_mul_int_converts, converts_in_range, Hr.
Qed.

Lemma Fraction_of_int_sub (a b : Z) :
  Fraction_of_int (a - b) = (Fraction_of_int a - Fraction_of_int b)%Qc.
Proof.
  apply Qc_is_canon. unfold Fraction_of_int, Qcminus, Qcplus, Qcopp.
  unfold Q2Qc. cbn [this]. rewrite !Qred_correct.
  unfold Z.sub. rewrite inject_Z_plus, inject_Z_opp. reflexivity.
Qed.

Lemma Fraction_of_int_nonzero (n : Z) :
  n <> 0 -> Fraction_of_int n <> 0%Qc.
Proof.
  intros Hn Heq. apply Q2Qc_eq_iff in Heq.
  unfold Qeq in Heq. simpl in Heq. lia.
Qed.

Lemma Fraction_of_int_diff (b t : Z) :
  t <> b -> (Fraction_of_int t - Fraction_of_int b)%Qc <> 0%Qc.
Proof.
  intros Htb. rewrite <- Fraction_of_int_sub.
  apply Fraction_of_int_nonzero. lia.
Qed.

Lemma Fraction_truediv_nonzero (x y : Fraction) :
  y <> 0%Qc -> Fraction_truediv x y = Return (x / y)%Qc.
Proof.
  intros Hy. unfold Fraction_truediv.
  destruct (Qc_eq_dec y 0); [contradiction | reflexivity].
Qed.

Lemma Fraction_truediv_int (x : Fraction) (n : Z) :
  n <> 0 -> truediv_int x n = Return (x / Fraction_of_int n)%Qc.
Proof.
  intros Hn. unfold truediv_int. cbn [of_int Fraction_Number bind truediv].
  apply Fraction_truediv_nonzero, Fraction_of_int_nonzero, Hn.
Qed.

Lemma Fraction_truediv_int_0 (x : Fraction) :
  truediv_int x 0 = Raise ZeroDivisionError.
Proof.
  unfold truediv_int. cbn [of_int Fraction_Number bind truediv].
  unfold Fraction_truediv.
  destruct (Qc_eq_dec (Fraction_of_int 0) 0) as [ | Hne]; [reflexivity | ].
  exfalso. apply Hne. reflexivity.
Qed.

(** ** What the target mathematics computes *)

(** [linear_equation] on floats, for years that differ and whose
    [int] operands convert. *)
Lemma linear_equation_float_converts (b t : Z) (e p : float) :
  t <> b -> converts (t - b) -> converts b ->
  let target := (e * (lit 1 - p / lit 100))%b64 in
  let slope := ((target - e) / lit (t - b))%b64 in
  let intercept := (e - slope * lit b)%b64 in
  linear_equation b e p t =
  Return {| slope := slope; intercept := intercept;
            target_emissions := target;
            equation := fun YEAR =>
              bind (mul_int slope YEAR)
                (fun at_year => Return (at_year + intercept)%b64) |}.
Proof.
  intros Htb Hd Hb. unfold linear_equation.
  rewrite float_truediv_int_100. cbn [bind].
  rewrite float_int_sub_1. cbn [bind].
  rewrite float_truediv_int_converts by first [lia | assumption]. cbn [bind].
  rewrite float_mul_int_converts by assumption. cbn [bind].
  reflexivity.
Qed.

Lemma scaled_emissions_float_converts (b t y : Z) (e p : float) :
  t <> b -> converts (t - b) -> converts b -> converts y ->
  let slope := ((e * (lit 1 - p / lit 100) - e) / lit (t - b))%b64 in
  scaled_emissions b e p t y
  = Return (slope * lit y + (e - slope * lit b))%b64.
Proof.
  intros Htb Hd Hb Hy. unfold scaled_emissions.
  rewrite linear_equation_float_converts by assumption.
  cbn [bind equation]. rewrite float_mul_int_converts by assumption.
  reflexivity.
Qed.

(** [linear_equation] on floats, for years in range that differ. *)
Lemma linear_equation_float (b t : Z) (e p : float) :
  t <> b -> Z.abs b < year_bound -> Z.abs t < year_bound ->
  let target := (e * (lit 1 - p / lit 100))%b64 in
  let slope := ((target - e) / lit (t - b))%b64 in
  let intercept := (e - slope * lit b)%b64 in
  linear_equation b e p t =
  Return {| slope := slope; intercept := intercept;
            target_emissions := target;
            equation := fun YEAR =>
              bind (mul_int slope YEAR)
                (fun at_year => Return (at_year + intercept)%b64) |}.
Proof.
  intros Htb Hb Ht. pose proof year_bound_double as Hdouble.
  unfold linear_equation.
  rewrite float_truediv_int_100. cbn [bind].
  rewrite float_int_sub_1. cbn [bind].
  rewrite float_truediv_int by lia. cbn [bind].
  rewrite float_mul_int by lia. cbn [bind].
  reflexivity.
Qed.

Lemma scaled_emissions_float (b t y : Z) (e p : float) :
  t <> b -> Z.abs b < year_bound -> Z.abs t < year_bound ->
  Z.abs y < year_bound ->
  let slope := ((e * (lit 1 - p / lit 100) - e) / lit (t - b))%b64 in
  scaled_emissions b e p t y
  = Return (slope * lit y + (e - slope * lit b))%b64.
Proof.
  intros Htb Hb Ht Hy. pose proof year_bound_double as Hdouble.
  unfold scaled_emissions.
  rewrite linear_equation_float by assumption.
  cbn [bind equation]. rewrite float_mul_int by lia. reflexivity.
Qed.

(** [linear_equation] on exact rationals, for years that differ. *)
Lemma linear_equation_Fraction (b t : Z) (e p : Fraction) :
  t <> b ->
  let target := (e * (1 - p / Fraction_of_int 100))%Qc in
  let slope := ((target - e) / Fraction_of_int (t - b))%Qc in
  let intercept := (e - slope * Fraction_of_int b)%Qc in
  linear_equation b e p t =
  Return {| slope := slope; intercept := intercept;
            target_emissions := target;
            equation := fun YEAR =>
              Return (slope * Fraction_of_int YEAR + intercept)%Qc |}.
Proof.
  intros Htb. unfold linear_equation.
  rewrite Fraction_truediv_int by lia. cbn [bind].
  unfold int_sub at 1. cbn [of_int Fraction_Number bind sub mul].
  rewrite Fraction_truediv_int by lia. cbn [bind].
  reflexivity.
Qed.

Lemma scaled_emissions_Fraction (b t y : Z) (e p : Fraction) :
  t <> b ->
  let slope := ((e * (1 - p / Fraction_of_int 100) - e)
                / (Fraction_of_int t - Fraction_of_int b))%Qc in
  scaled_emissions b e p t y
  = Return (slope * Fraction_of_int y + (e - slope * Fraction_of_int b))%Qc.
Proof.
  intros Htb. unfold scaled_emissions.
  rewrite linear_equation_Fraction by assumption.
  cbn [bind equation]. rewrite Fraction_of_int_sub. reflexivity.
Qed.

(** ** The table engine *)

Lemma filter_filter {A : Type} (f g : A -> bool) (l : list A) :
  filter f (filter g l) = filter (fun x => g x && f x) l.
Proof.
  induction l as [ | a l IH]; [reflexivity | ]. simpl.
  destruct (g a); simpl; [destruct (f a) | ]; rewrite IH; reflexivity.
Qed.

Lemma item_loc_cols {R A : Type} (col : R -> A) (df : DataFrame R) :
  item (loc_cols col df)
  = match df with
    | [(_, r)] => Return (col r)
    | _ => Raise ValueError
    end.
Proof. destruct df as [ | [i r] [ | ir rest]]; reflexivity. Qed.

Lemma loc_rows_loc_cols {R S : Type} (cols : R -> S) (mask : S -> bool)
    (df : DataFrame R) :
  loc_rows mask (loc_cols cols df)
  = loc_cols cols (loc_rows (fun x => mask (cols x)) df).
Proof.
  unfold loc_rows, loc_cols.
  induction df as [ | [i r] rest IH]; [reflexivity | ]. simpl.
  destruct (mask (cols r)); simpl; rewrite IH; reflexivity.
Qed.

Lemma loc_cols_loc_cols {R S T : Type} (f : R -> S) (g : S -> T)
    (df : DataFrame R) :
  loc_cols g (loc_cols f df) = loc_cols (fun x => g (f x)) df.
Proof. unfold loc_cols. rewrite map_map. reflexivity. Qed.

Lemma loc_rows_nothing {R : Type} (mask : R -> bool) (df : DataFrame R) :
  (forall r, mask r = false) -> loc_rows mask df = [].
Proof.
  intros Hmask. unfold loc_rows.
  induction df as [ | [i r] rest IH]; [reflexivity | ].
  simpl. rewrite Hmask. exact IH.
Qed.

Section DropDuplicates.
Context {R : Type} (R_eq_dec : forall a b : R, {a = b} + {a <> b}).

Lemma drop_duplicates_In (df : DataFrame R) (ir : Z * R) :
  In ir (drop_duplicates R_eq_dec df) -> In ir df.
Proof.
  induction df as [ | jr rest IH]; simpl; [tauto | ].
  intros [Heq | Hin]; [left; exact Heq | right].
  apply filter_In in Hin. apply IH, Hin.
Qed.

Lemma NoDup_values_filter (keep : Z * R -> bool) (df : DataFrame R) :
  NoDup (map snd df) -> NoDup (map snd (filter keep df)).
Proof.
  induction df as [ | jr rest IH]; simpl; intros Hnodup; [constructor | ].
  inversion Hnodup as [ | x xs Hnotin Hrest]; subst.
  destruct (keep jr); simpl; [ | apply IH, Hrest].
  constructor; [ | apply IH, Hrest].
  rewrite in_map_iff. intros (x & Hx & Hin).
  apply filter_In in Hin. apply Hnotin.
  rewrite in_map_iff. exists x. tauto.
Qed.

Lemma drop_duplicates_NoDup (df : DataFrame R) :
  NoDup (map snd (drop_duplicates R_eq_dec df)).
Proof.
  induction df as [ | jr rest IH]; simpl; [constructor | ].
  constructor; [ | apply NoDup_values_filter, IH].
  rewrite in_map_iff. intros ([i r] & Hsnd & Hin).
  apply filter_In in Hin. destruct Hin as [_ Hkeep].
  simpl in Hsnd, Hkeep. subst r.
  destruct (R_eq_dec (snd jr) (snd jr)); [discriminate | contradiction].
Qed.

(** Every row value of the table survives, in its first occurrence. *)
Lemma drop_duplicates_complete (df : DataFrame R) (ir : Z * R) :
  In ir df -> In (snd ir) (map snd (drop_duplicates R_eq_dec df)).
Proof.
  induction df as [ | jr rest IH]; simpl; [tauto | ].
  intros [Heq | Hin]; [left; congruence | ].
  destruct (R_eq_dec (snd ir) (snd jr)) as [Hsame | Hdiff];
    [left; congruence | right].
  specialize (IH Hin). rewrite in_map_iff in IH |- *.
  destruct IH as (x & Hx & Hxin). exists x. split; [exact Hx | ].
  apply filter_In. split; [exact Hxin | ].
  destruct (R_eq_dec (snd x) (snd jr)); [congruence | reflexivity].
Qed.

End DropDuplicates.

Lemma cell_eqb_Int (c : cell) (y : Z) :
  cell_eqb c (Int y) = true <-> c = Int y.
Proof.
  destruct c as [ | z | s]; simpl; split; try discriminate.
  - intros Hz. apply Z.eqb_eq in Hz. congruence.
  - intros Hz. inversion Hz. apply Z.eqb_refl.
Qed.

Lemma cell_eqb_Str (c : cell) (t : string) :
  cell_eqb c (Str t) = true <-> c = Str t.
Proof.
  destruct c as [ | z | s]; simpl; split; try discriminate.
  - intros Hs. apply String.eqb_eq in Hs. congruence.
  - intros Hs. inversion Hs. apply String.eqb_refl.
Qed.

Lemma cell_eqb_NaN (c : cell) : cell_eqb c NaN = false.
Proof. destruct c; reflexivity. Qed.

(** The minimum of a column that holds one year only. *)
Lemma series_min_constant (s : Series cell) (y : Z) :
  (forall ic, In ic s -> snd ic = Int y) ->
  series_min s = Return (match s with [] => NaN | _ => Int y end).
Proof.
  induction s as [ | [i c] rest IH]; intros Hall; [reflexivity | ].
  simpl. rewrite IH by (intros ic Hin; apply Hall; right; exact Hin).
  assert (Hc : c = Int y) by (apply (Hall (i, c)); left; reflexivity).
  subst c. simpl.
  destruct rest; simpl; [reflexivity | rewrite Z.min_id; reflexivity].
Qed.

(** ** What the table functions compute *)

Section IpccFacts.
Context {F : Type} `{Number F}.

(** The baseline [ipcc_range] reads is the only row of
    [baseline_rows]; there is an error when there is none or several. *)
Lemma ipcc_range_baseline (df : DataFrame (Emissions.row F))
    (actor_id : option string) (baseline_year : Z) (tv15 tv20 : F) :
  ipcc_range df actor_id baseline_year tv15 tv20
  = bind (match baseline_rows df actor_id baseline_year with
          | [(_, r)] => Return (Emissions.total_emissions r)
          | _ => Raise ValueError
          end)
      (fun baseline_emissions =>
         bind (truediv_int tv15 100) (fun decimal_15 =>
         bind (int_sub 1 decimal_15) (fun remaining_15 =>
         bind (truediv_int tv20 100) (fun decimal_20 =>
         bind (int_sub 1 decimal_20) (fun remaining_20 =>
         Return {| Ipcc.baseline_year := baseline_year;
                   Ipcc.target_value_1_5C := tv15;
                   Ipcc.target_emissions_1_5C :=
                     mul baseline_emissions remaining_15;
                   Ipcc.target_value_2_0C := tv20;
                   Ipcc.target_emissions_2_0C :=
                     mul baseline_emissions remaining_20 |}))))).
Proof.
  unfold ipcc_range, baseline_rows, matches_baseline.
  destruct actor_id as [a | ]; rewrite item_loc_cols.
  - unfold loc_rows. rewrite filter_filter. reflexivity.
  - reflexivity.
Qed.

End IpccFacts.

(** When the client answers, [get_target] returns the kept records,
    projected and without duplicates: the minimum is the requested
    year or missing, and a missing minimum selects nothing. *)
Lemma get_target_returns (oc : Client) (actor_id : string) (year : Z)
    (data_id : option string) (found : DataFrame Target.row) :
  targets oc actor_id = Return found ->
  get_target oc actor_id year data_id
  = Some (drop_duplicates Target.out_eq_dec
            (loc_cols (fun x => Target.cols_out (Target.select x))
               (kept found year))).
Proof.
  intros Hfound. unfold get_target, get_target_try. rewrite Hfound.
  cbn [bind].
  set (part_targets := loc_cols Target.select _).
  set (years := loc_rows _ (loc_cols Target.sel_target_year part_targets)).
  rewrite (series_min_constant years year).
  2:{ intros [i c] Hin. apply filter_In in Hin. destruct Hin as [_ Hc].
      apply cell_eqb_Int in Hc. exact Hc. }
  cbn [bind]. f_equal.
  assert (Hsame :
    loc_rows (fun x => cell_eqb (Target.sel_target_year x)
                         (match years with [] => NaN | _ => Int year end))
      part_targets
    = loc_rows (fun x => cell_eqb (Target.sel_target_year x) (Int year))
        part_targets).
  { destruct years as [ | ic rest] eqn:Hyears; [ | reflexivity].
    rewrite loc_rows_nothing by (intros r; apply cell_eqb_NaN).
    subst years. rewrite loc_rows_loc_cols in Hyears.
    unfold loc_cols in Hyears. apply map_eq_nil in Hyears.
    symmetry. exact Hyears. }
  rewrite Hsame. subst part_targets.
  rewrite loc_rows_loc_cols, loc_cols_loc_cols.
  unfold kept, loc_rows at 1 2. rewrite filter_filter. reflexivity.
Qed.

(** * The claims *)

(** ** C1: the line of [linear_equation] *)

(** C1, as stated, fails on its example: for
    [linear_equation(2020, 100, 50, 2030)] the intercept is not 10100
    when the slope is -5 and the line passes through (2025, 75).  The
    formulas also suppose [int] operands that convert to [float]: a
    year of [2^1024] raises [OverflowError], and so do the years
    [-2^1023] and [2^1023], which convert while their difference does
    not. *)
Lemma linear_equation_intercept_10100 :
  ~ (exists r,
       linear_equation 2020 (lit 100) (lit 50) 2030 = Return r /\
       slope r = lit (-5) /\ intercept r = lit 10100 /\
       target_emissions r = lit 50 /\ equation r 2025 = Return (lit 75)) /\
  linear_equation 0 (lit 1) (lit 1) (2 ^ 1024) = Raise OverflowError /\
  (converts (- 2 ^ 1023) /\ converts (2 ^ 1023) /\
   linear_equation (- 2 ^ 1023) (lit 1) (lit 1) (2 ^ 1023)
   = Raise OverflowError).
Proof.
  split; [ | split; [ | split; [ | split]]].
  - intros (r & Hr & _ & Hi & _).
    rewrite linear_equation_float in Hr by first [discriminate | reflexivity].
    apply (f_equal (fun c => match c with
                             | Return x => intercept x
                             | Raise _ => lit 0
                             end)) in Hr.
    cbn [intercept] in Hr. rewrite Hi in Hr.
    vm_compute in Hr. discriminate Hr.
  - vm_compute. reflexivity.
  - vm_compute. reflexivity.
  - vm_compute. reflexivity.
  - vm_compute. reflexivity.
Qed.

(** C1, amended: for years that differ (and, on floats, when the two
    [int] operands [t - b] and [b] convert to [float])
    [linear_equation] returns
    [target_emissions = e * (1 - p/100)],
    [slope = (target_emissions - e) / (t - b)],
    [intercept = e - slope * b] and the closure
    [YEAR -> slope * YEAR + intercept] (on floats at every [YEAR] that
    converts), on floats and on exact rationals;
    [linear_equation(2020, 100, 50, 2030)] has slope -5,
    intercept 10200, target_emissions 50 and gives 75 at 2025. *)
Theorem linear_equation_line :
  (forall (b t : Z) (e p : float),
      t <> b -> converts (t - b) -> converts b ->
      exists r,
        linear_equation b e p t = Return r /\
        target_emissions r = (e * (lit 1 - p / lit 100))%b64 /\
        slope r = ((target_emissions r - e) / lit (t - b))%b64 /\
        intercept r = (e - slope r * lit b)%b64 /\
        forall y, converts y ->
          equation r y = Return (slope r * lit y + intercept r)%b64) /\
  (forall (b t : Z) (e p : Fraction),
      t <> b ->
      exists r,
        linear_equation b e p t = Return r /\
        target_emissions r = (e * (1 - p / Fraction_of_int 100))%Qc /\
        slope r = ((target_emissions r - e)
                   / (Fraction_of_int t - Fraction_of_int b))%Qc /\
        intercept r = (e - slope r * Fraction_of_int b)%Qc /\
        forall y,
          equation r y
          = Return (slope r * Fraction_of_int y + intercept r)%Qc) /\
  (exists r,
      linear_equation 2020 (lit 100) (lit 50) 2030 = Return r /\
      slope r = lit (-5) /\ intercept r = lit 10200 /\
      target_emissions r = lit 50 /\ equation r 2025 = Return (lit 75)).
Proof.
  split; [ | split].
  - intros b t e p Htb Hd Hb.
    eexists. split; [apply linear_equation_float_converts; assumption | ].
    cbn [slope intercept target_emissions equation].
    repeat split. intros y Hy.
    rewrite float_mul_int_converts by assumption. reflexivity.
  - intros b t e p Htb.
    eexists. split; [apply linear_equation_Fraction; assumption | ].
    cbn [slope intercept target_emissions equation].
    rewrite Fraction_of_int_sub. repeat split.
  - eexists.
    split; [apply linear_equation_float; first [discriminate | reflexivity] | ].
    cbn [slope intercept target_emissions equation].
    repeat split; vm_compute; reflexivity.
Qed.

(** The years 2019 and 2030, 1000 tonnes and 43 percent, on floats and
    on exact rationals. *)
Lemma linear_equation_line_witness :
  2030 <> 2019 /\ converts (2030 - 2019) /\ converts 2019 /\
  (exists r,
      linear_equation 2019 (lit 1000) (lit 43) 2030 = Return r /\
      target_emissions r = (lit 1000 * (lit 1 - lit 43 / lit 100))%b64 /\
      slope r = ((target_emissions r - lit 1000) / lit (2030 - 2019))%b64 /\
      intercept r = (lit 1000 - slope r * lit 2019)%b64 /\
      forall y, converts y ->
        equation r y = Return (slope r * lit y + intercept r)%b64) /\
  (exists r,
      linear_equation 2019 (Fraction_of_int 1000) (Fraction_of_int 43) 2030
      = Return r /\
      target_emissions r
      = (Fraction_of_int 1000
         * (1 - Fraction_of_int 43 / Fraction_of_int 100))%Qc /\
      slope r = ((target_emissions r - Fraction_of_int 1000)
                 / (Fraction_of_int 2030 - Fraction_of_int 2019))%Qc /\
      intercept r = (Fraction_of_int 1000 - slope r * Fraction_of_int 2019)%Qc /\
      forall y,
        equation r y
        = Return (slope r * Fraction_of_int y + intercept r)%Qc).
Proof.
  assert (Hne : 2030 <> 2019) by discriminate.
  assert (Hd : converts (2030 - 2019)) by reflexivity.
  assert (Hb : converts 2019) by reflexivity.
  split; [exact Hne | split; [exact Hd | split; [exact Hb | split]]].
  - exact (proj1 linear_equation_line 2019 2030 (lit 1000) (lit 43)
             Hne Hd Hb).
  - exact (proj1 (proj2 linear_equation_line) 2019 2030
             (Fraction_of_int 1000) (Fraction_of_int 43) Hne).
Defined.

(** ** C2: equal years *)

(** C2: whatever the baseline year, the emissions and the percentage,
    [linear_equation(b, e, p, b)] raises [ZeroDivisionError]: it
    returns no result, so no infinity and no NaN. *)
Theorem linear_equation_same_year_raises :
  (forall (b : Z) (e p : float),
      linear_equation b e p b = Raise ZeroDivisionError) /\
  (forall (b : Z) (e p : Fraction),
      linear_equation b e p b = Raise ZeroDivisionError).
Proof.
  split; intros b e p; unfold linear_equation.
  - rewrite float_truediv_int_100. cbn [bind].
    rewrite float_int_sub_1. cbn [bind].
    rewrite Z.sub_diag, float_truediv_int_0. reflexivity.
  - rewrite Fraction_truediv_int by lia. cbn [bind].
    unfold int_sub at 1. cbn [of_int Fraction_Number bind sub mul].
    rewrite Z.sub_diag, Fraction_truediv_int_0. reflexivity.
Qed.

(** ** C3: the line at the baseline year *)

(** C3, as stated, fails on floats:
    [scaled_emissions(1990, 19, 27, 2030, 1990)] is
    19.00000000000003, which is not 19, also for the comparison [==]
    of floats. *)
Lemma scaled_emissions_at_baseline_rounds :
  2030 <> 1990 /\
  scaled_emissions 1990 (lit 19) (lit 27) 2030 1990 = Return above_19 /\
  above_19 <> lit 19 /\
  SFeqb above_19 (lit 19) = false.
Proof.
  split; [discriminate | split; [ | split]].
  - vm_compute. reflexivity.
  - vm_compute. discriminate.
  - vm_compute. reflexivity.
Qed.

(** C3, amended: for years that differ, [scaled_emissions(b, e, p, t, b)]
    is [e] in exact rational arithmetic; on floats, when the [int]
    operands [t - b] and [b] convert to [float], it is the rounded
    [slope * b + (e - slope * b)], which is 100 for
    [scaled_emissions(2020, 100, 50, 2030, 2020)]. *)
Theorem scaled_emissions_at_baseline :
  (forall (b t : Z) (e p : Fraction),
      t <> b -> scaled_emissions b e p t b = Return e) /\
  (forall (b t : Z) (e p : float),
      t <> b -> converts (t - b) -> converts b ->
      let slope := ((e * (lit 1 - p / lit 100) - e) / lit (t - b))%b64 in
      scaled_emissions b e p t b
      = Return (slope * lit b + (e - slope * lit b))%b64) /\
  scaled_emissions 2020 (lit 100) (lit 50) 2030 2020 = Return (lit 100).
Proof.
  split; [ | split].
  - intros b t e p Htb. rewrite scaled_emissions_Fraction by assumption.
    apply (f_equal (@Return Qc)). ring.
  - intros b t e p Htb Hd Hb.
    apply scaled_emissions_float_converts; assumption.
  - vm_compute. reflexivity.
Qed.

(** 19 tonnes, 27 percent, from 1990 to 2030: exactly 19 on exact
    rationals, the rounded sum on floats. *)
Lemma scaled_emissions_at_baseline_witness :
  2030 <> 1990 /\ converts (2030 - 1990) /\ converts 1990 /\
  scaled_emissions 1990 (Fraction_of_int 19) (Fraction_of_int 27) 2030 1990
  = Return (Fraction_of_int 19) /\
  scaled_emissions 1990 (lit 19) (lit 27) 2030 1990
  = Return
      ((lit 19 * (lit 1 - lit 27 / lit 100) - lit 19) / lit (2030 - 1990)
       * lit 1990
       + (lit 19
          - (lit 19 * (lit 1 - lit 27 / lit 100) - lit 19) / lit (2030 - 1990)
            * lit 1990))%b64.
Proof.
  assert (Hne : 2030 <> 1990) by discriminate.
  assert (Hd : converts (2030 - 1990)) by reflexivity.
  assert (Hb : converts 1990) by reflexivity.
  split; [exact Hne | split; [exact Hd | split; [exact Hb | split]]].
  - exact (proj1 scaled_emissions_at_baseline 1990 2030
             (Fraction_of_int 19) (Fraction_of_int 27) Hne).
  - exact (proj1 (proj2 scaled_emissions_at_baseline) 1990 2030
             (lit 19) (lit 27) Hne Hd Hb).
Defined.

(** ** C4: the line at the target year *)

(** C4, as stated, fails on floats: for
    [linear_equation(2019, 1000, 43, 2030)] the target emissions are
    570.0000000000001 and the line at 2030 gives 570.0, which is not
    the same, also for the comparison [==] of floats. *)
Lemma scaled_emissions_at_target_rounds :
  2030 <> 2019 /\
  (lit 1000 * (lit 1 - lit 43 / lit 100))%b64 = above_570 /\
  (exists r,
      linear_equation 2019 (lit 1000) (lit 43) 2030 = Return r /\
      target_emissions r = above_570) /\
  scaled_emissions 2019 (lit 1000) (lit 43) 2030 2030 = Return (lit 570) /\
  lit 570 <> above_570 /\
  SFeqb (lit 570) above_570 = false.
Proof.
  split; [discriminate | split; [ | split; [ | split; [ | split]]]].
  - vm_compute. reflexivity.
  - eexists.
    split; [apply linear_equation_float; first [discriminate | reflexivity] | ].
    cbn [target_emissions]. vm_compute. reflexivity.
  - vm_compute. reflexivity.
  - vm_compute. discriminate.
  - vm_compute. reflexivity.
Qed.

(** C4, amended: for years that differ, [scaled_emissions(b, e, p, t, t)]
    is [e * (1 - p/100)], the target emissions of [linear_equation],
    in exact rational arithmetic; on floats, when the [int] operands
    [t - b], [b] and [t] convert to [float], it is the rounded
    [slope * t + (e - slope * b)], which is 50 for
    [scaled_emissions(2020, 100, 50, 2030, 2030)]. *)
Theorem scaled_emissions_at_target :
  (forall (b t : Z) (e p : Fraction),
      t <> b ->
      scaled_emissions b e p t t
      = Return (e * (1 - p / Fraction_of_int 100))%Qc /\
      exists r,
        linear_equation b e p t = Return r /\
        scaled_emissions b e p t t = Return (target_emissions r)) /\
  (forall (b t : Z) (e p : float),
      t <> b -> converts (t - b) -> converts b -> converts t ->
      let slope := ((e * (lit 1 - p / lit 100) - e) / lit (t - b))%b64 in
      scaled_emissions b e p t t
      = Return (slope * lit t + (e - slope * lit b))%b64) /\
  scaled_emissions 2020 (lit 100) (lit 50) 2030 2030 = Return (lit 50).
Proof.
  split; [ | split].
  - intros b t e p Htb.
    assert (Hat : scaled_emissions b e p t t
                  = Return (e * (1 - p / Fraction_of_int 100))%Qc).
    { rewrite scaled_emissions_Fraction by assumption.
      apply (f_equal (@Return Qc)).
      pose proof (Fraction_of_int_diff b t Htb) as Hd.
      pose proof (Fraction_of_int_nonzero 100 ltac:(lia)) as H100.
      field. split; assumption. }
    split; [exact Hat | ].
    eexists. split; [apply linear_equation_Fraction; assumption | ].
    exact Hat.
  - intros b t e p Htb Hd Hb Ht.
    apply scaled_emissions_float_converts; assumption.
  - vm_compute. reflexivity.
Qed.

(** 1000 tonnes, 43 percent, from 2019 to 2030: exactly the target on
    exact rationals, the rounded sum on floats. *)
Lemma scaled_emissions_at_target_witness :
  2030 <> 2019 /\ converts (2030 - 2019) /\ converts 2019 /\
  converts 2030 /\
  scaled_emissions 2019 (Fraction_of_int 1000) (Fraction_of_int 43) 2030 2030
  = Return (Fraction_of_int 1000
            * (1 - Fraction_of_int 43 / Fraction_of_int 100))%Qc /\
  scaled_emissions 2019 (lit 1000) (lit 43) 2030 2030
  = Return
      ((lit 1000 * (lit 1 - lit 43 / lit 100) - lit 1000) / lit (2030 - 2019)
       * lit 2030
       + (lit 1000
          - (lit 1000 * (lit 1 - lit 43 / lit 100) - lit 1000)
            / lit (2030 - 2019) * lit 2019))%b64.
Proof.
  assert (Hne : 2030 <> 2019) by discriminate.
  assert (Hd : converts (2030 - 2019)) by reflexivity.
  assert (Hb : converts 2019) by reflexivity.
  assert (Ht : converts 2030) by reflexivity.
  split; [exact Hne | split; [exact Hd | split; [exact Hb | split;
    [exact Ht | split]]]].
  - exact (proj1 (proj1 scaled_emissions_at_target 2019 2030
                    (Fraction_of_int 1000) (Fraction_of_int 43) Hne)).
  - exact (proj1 (proj2 scaled_emissions_at_target) 2019 2030
             (lit 1000) (lit 43) Hne Hd Hb Ht).
Defined.

(** ** C5: the targets of [ipcc_range] *)

(** C5, as stated, fails on its example: with the one-row table
    {year: 2019, total_emissions: 200} and the defaults 43 and 27 the
    1.5C target is not 114 on floats. *)
Lemma ipcc_range_114_rounds :
  ~ (exists d,
       ipcc_range (one_row "CA" "UNFCCC" 2019 (lit 200)) None
         baseline_year_default (lit target_value15_default)
         (lit target_value20_default)
       = Return d /\
       Ipcc.target_emissions_1_5C d = lit 114 /\
       Ipcc.target_emissions_2_0C d = lit 146).
Proof.
  intros (d & Hd & H15 & _).
  vm_compute in Hd. inversion Hd; subst d.
  vm_compute in H15. discriminate H15.
Qed.

(** C5, amended: when the baseline filter matches exactly one row, of
    total emissions [B], [ipcc_range] returns the baseline year, the
    two target values and the targets [B * (1 - target_value15/100)]
    and [B * (1 - target_value20/100)], on floats and on exact
    rationals.  With the one-row table {year: 2019, total_emissions:
    200} and the defaults the targets are 114.00000000000001 and 146
    on floats, 114 and 146 on exact rationals. *)
Theorem ipcc_range_targets :
  (forall (df : DataFrame (Emissions.row float)) (actor_id : option string)
          (baseline_year : Z) (tv15 tv20 : float) (i : Z)
          (r : Emissions.row float),
      baseline_rows df actor_id baseline_year = [(i, r)] ->
      ipcc_range df actor_id baseline_year tv15 tv20
      = Return {| Ipcc.baseline_year := baseline_year;
                  Ipcc.target_value_1_5C := tv15;
                  Ipcc.target_emissions_1_5C :=
                    (Emissions.total_emissions r
                     * (lit 1 - tv15 / lit 100))%b64;
                  Ipcc.target_value_2_0C := tv20;
                  Ipcc.target_emissions_2_0C :=
                    (Emissions.total_emissions r
                     * (lit 1 - tv20 / lit 100))%b64 |}) /\
  (forall (df : DataFrame (Emissions.row Fraction))
          (actor_id : option string) (baseline_year : Z)
          (tv15 tv20 : Fraction) (i : Z) (r : Emissions.row Fraction),
      baseline_rows df actor_id baseline_year = [(i, r)] ->
      ipcc_range df actor_id baseline_year tv15 tv20
      = Return {| Ipcc.baseline_year := baseline_year;
                  Ipcc.target_value_1_5C := tv15;
                  Ipcc.target_emissions_1_5C :=
                    (Emissions.total_emissions r
                     * (1 - tv15 / Fraction_of_int 100))%Qc;
                  Ipcc.target_value_2_0C := tv20;
                  Ipcc.target_emissions_2_0C :=
                    (Emissions.total_emissions r
                     * (1 - tv20 / Fraction_of_int 100))%Qc |}) /\
  (forall actor datasource : string,
      ipcc_range (one_row actor datasource 2019 (lit 200)) None
        baseline_year_default (lit target_value15_default)
        (lit target_value20_default)
      = Return {| Ipcc.baseline_year := 2019;
                  Ipcc.target_value_1_5C := lit 43;
                  Ipcc.target_emissions_1_5C := above_114;
                  Ipcc.target_value_2_0C := lit 27;
                  Ipcc.target_emissions_2_0C := lit 146 |}) /\
  (forall actor datasource : string,
      ipcc_range (one_row actor datasource 2019 (Fraction_of_int 200)) None
        baseline_year_default (Fraction_of_int target_value15_default)
        (Fraction_of_int target_value20_default)
      = Return {| Ipcc.baseline_year := 2019;
                  Ipcc.target_value_1_5C := Fraction_of_int 43;
                  Ipcc.target_emissions_1_5C := Fraction_of_int 114;
                  Ipcc.target_value_2_0C := Fraction_of_int 27;
                  Ipcc.target_emissions_2_0C := Fraction_of_int 146 |}).
Proof.
  split; [ | split; [ | split]].
  - intros df actor_id baseline_year tv15 tv20 i r Hrows.
    rewrite ipcc_range_baseline, Hrows. cbn [bind].
    rewrite !float_truediv_int_100. cbn [bind].
    rewrite !float_int_sub_1. reflexivity.
  - intros df actor_id baseline_year tv15 tv20 i r Hrows.
    rewrite ipcc_range_baseline, Hrows. cbn [bind].
    rewrite !Fraction_truediv_int by lia. reflexivity.
  - intros actor datasource. vm_compute. reflexivity.
  - intros actor datasource. rewrite ipcc_range_baseline.
    cbn [baseline_rows one_row loc_rows filter matches_baseline snd
         Emissions.year Emissions.total_emissions andb].
    unfold baseline_year_default. rewrite Z.eqb_refl. cbn [bind].
    rewrite !Fraction_truediv_int by lia.
    cbn [bind int_sub of_int Fraction_Number sub mul].
    f_equal. f_equal; apply Qc_is_canon; vm_compute; reflexivity.
Qed.

(** Two actors in one table and the baseline of one of them, on
    floats and on exact rationals. *)
Lemma ipcc_range_targets_witness :
  (baseline_rows
     (one_row "CA" "UNFCCC" 2019 (lit 200)
      ++ one_row "US" "UNFCCC" 2019 (lit 6000))
     (Some "US"%string) 2019
   = one_row "US" "UNFCCC" 2019 (lit 6000) /\
   ipcc_range
     (one_row "CA" "UNFCCC" 2019 (lit 200)
      ++ one_row "US" "UNFCCC" 2019 (lit 6000))
     (Some "US"%string) 2019 (lit 43) (lit 27)
   = Return {| Ipcc.baseline_year := 2019;
               Ipcc.target_value_1_5C := lit 43;
               Ipcc.target_emissions_1_5C :=
                 (lit 6000 * (lit 1 - lit 43 / lit 100))%b64;
               Ipcc.target_value_2_0C := lit 27;
               Ipcc.target_emissions_2_0C :=
                 (lit 6000 * (lit 1 - lit 27 / lit 100))%b64 |}) /\
  (baseline_rows
     (one_row "CA" "UNFCCC" 2019 (Fraction_of_int 200)
      ++ one_row "US" "UNFCCC" 2019 (Fraction_of_int 6000))
     (Some "US"%string) 2019
   = one_row "US" "UNFCCC" 2019 (Fraction_of_int 6000) /\
   ipcc_range
     (one_row "CA" "UNFCCC" 2019 (Fraction_of_int 200)
      ++ one_row "US" "UNFCCC" 2019 (Fraction_of_int 6000))
     (Some "US"%string) 2019 (Fraction_of_int 43) (Fraction_of_int 27)
   = Return {| Ipcc.baseline_year := 2019;
               Ipcc.target_value_1_5C := Fraction_of_int 43;
               Ipcc.target_emissions_1_5C :=
                 (Fraction_of_int 6000
                  * (1 - Fraction_of_int 43 / Fraction_of_int 100))%Qc;
               Ipcc.target_value_2_0C := Fraction_of_int 27;
               Ipcc.target_emissions_2_0C :=
                 (Fraction_of_int 6000
                  * (1 - Fraction_of_int 27 / Fraction_of_int 100))%Qc |}).
Proof.
  split.
  - split; [reflexivity | ].
    exact (proj1 ipcc_range_targets
             (one_row "CA" "UNFCCC" 2019 (lit 200)
              ++ one_row "US" "UNFCCC" 2019 (lit 6000))
             (Some "US"%string) 2019 (lit 43) (lit 27) 0
             {| Emissions.actor_id := "US"; Emissions.year := 2019;
                Emissions.total_emissions := lit 6000;
                Emissions.datasource_id := "UNFCCC" |}
             eq_refl).
  - split; [reflexivity | ].
    exact (proj1 (proj2 ipcc_range_targets)
             (one_row "CA" "UNFCCC" 2019 (Fraction_of_int 200)
              ++ one_row "US" "UNFCCC" 2019 (Fraction_of_int 6000))
             (Some "US"%string) 2019
             (Fraction_of_int 43) (Fraction_of_int 27) 0
             {| Emissions.actor_id := "US"; Emissions.year := 2019;
                Emissions.total_emissions := Fraction_of_int 6000;
                Emissions.datasource_id := "UNFCCC" |}
             eq_refl).
Defined.

(** ** C6: no or several baselines *)

(** C6: when the baseline filter matches no row or more than one,
    [ipcc_range] raises [ValueError], whatever the numbers are. *)
Theorem ipcc_range_needs_one_baseline (F : Type) (N : Number F)
    (df : DataFrame (Emissions.row F)) (actor_id : option string)
    (baseline_year : Z) (tv15 tv20 : F) :
  List.length (baseline_rows df actor_id baseline_year) <> 1%nat ->
  ipcc_range df actor_id baseline_year tv15 tv20 = Raise ValueError.
Proof.
  intros Hlen. rewrite ipcc_range_baseline.
  destruct (baseline_rows df actor_id baseline_year)
    as [ | [i r] [ | ir rest]]; [reflexivity | | reflexivity].
  exfalso. apply Hlen. reflexivity.
Qed.

(** No row of 2019, and two rows of 2019. *)
Lemma ipcc_range_needs_one_baseline_witness :
  ipcc_range (one_row "CA" "UNFCCC" 2018 (lit 200)) None 2019
    (lit 43) (lit 27)
  = Raise ValueError /\
  ipcc_range
    (one_row "CA" "UNFCCC" 2019 (lit 200)
     ++ one_row "CA" "PRIMAP" 2019 (lit 210))
    None 2019 (lit 43) (lit 27)
  = Raise ValueError.
Proof.
  split.
  - apply (ipcc_range_needs_one_baseline float float_Number). discriminate.
  - apply (ipcc_range_needs_one_baseline float float_Number). discriminate.
Defined.

(** ** C7: [get_target] keeps the requested year only *)

(** C7: when the client returns a table, [get_target] returns a
    table; each of its rows is the projection of a record of the
    client of type 'Absolute emission reduction' whose target year is
    the requested one, and no two of its rows are equal.  Every such
    record of the client is among the rows by its values. *)
Theorem get_target_exact_year (oc : Client) (actor_id : string) (year : Z)
    (data_id : option string) (found : DataFrame Target.row) :
  targets oc actor_id = Return found ->
  exists target,
    get_target oc actor_id year data_id = Some target /\
    (forall i r, In (i, r) target ->
       Target.out_target_year r = Int year /\
       exists full,
         In (i, full) found /\
         Target.target_type full = Str absolute_emission_reduction /\
         Target.target_year full = Int year /\
         r = Target.cols_out (Target.select full)) /\
    NoDup (map snd target) /\
    (forall i full,
       In (i, full) found ->
       Target.target_type full = Str absolute_emission_reduction ->
       Target.target_year full = Int year ->
       In (Target.cols_out (Target.select full)) (map snd target)).
Proof.
  intros Hfound. eexists. split; [apply get_target_returns, Hfound | ].
  split; [ | split; [apply drop_duplicates_NoDup | ]].
  - intros i r Hin. apply drop_duplicates_In in Hin.
    unfold loc_cols in Hin. apply in_map_iff in Hin.
    destruct Hin as ([j full] & Heq & Hin). simpl in Heq.
    inversion Heq; subst i r. clear Heq.
    apply filter_In in Hin. destruct Hin as [Hin Hmask].
    simpl in Hmask. apply andb_true_iff in Hmask.
    destruct Hmask as [Htype Hyear].
    apply cell_eqb_Str in Htype. apply cell_eqb_Int in Hyear.
    split; [exact Hyear | ].
    exists full. repeat split; assumption.
  - intros i full Hin Htype Hyear.
    apply (drop_duplicates_complete Target.out_eq_dec _
             (i, Target.cols_out (Target.select full))).
    unfold loc_cols. apply in_map_iff. exists (i, full).
    split; [reflexivity | ].
    apply filter_In. split; [exact Hin | ].
    cbn [snd]. apply andb_true_iff.
    split; [apply cell_eqb_Str, Htype | apply cell_eqb_Int, Hyear].
Qed.

(** The sample client and the default year 2030: of the two equal
    records of 2030 one is returned, the record of 2050 and the
    relative target are not. *)
Lemma get_target_exact_year_witness :
  targets sample_client "CA" = Return sample_targets /\
  exists target,
    get_target sample_client "CA" year_default None = Some target /\
    (forall i r, In (i, r) target ->
       Target.out_target_year r = Int year_default /\
       exists full,
         In (i, full) sample_targets /\
         Target.target_type full = Str absolute_emission_reduction /\
         Target.target_year full = Int year_default /\
         r = Target.cols_out (Target.select full)) /\
    NoDup (map snd target) /\
    (forall i full,
       In (i, full) sample_targets ->
       Target.target_type full = Str absolute_emission_reduction ->
       Target.target_year full = Int year_default ->
       In (Target.cols_out (Target.select full)) (map snd target)).
Proof.
  split; [reflexivity | ].
  exact (get_target_exact_year sample_client "CA" year_default None
           sample_targets eq_refl).
Defined.

(** ** C8: [get_emissions] and the client's errors *)

(** C8, as stated, fails in one direction: a client whose [emissions]
    call returns [None] makes [get_emissions] return [None] although
    no [ValueError], and no exception at all, was raised. *)
Lemma get_emissions_none_without_error :
  jupyter silent_client = Return tt /\
  get_emissions silent_client "CA" "UNFCCC" = Return None /\
  emissions silent_client "CA" "UNFCCC" <> Raise ValueError /\
  forall e, emissions silent_client "CA" "UNFCCC" <> Raise e.
Proof.
  split; [reflexivity | split; [reflexivity | split]].
  - discriminate.
  - intros e. discriminate.
Qed.

(** C8, amended: once [client.jupyter] is read, [get_emissions]
    returns [None] exactly when the client's [emissions] call raises
    [ValueError] or itself returns [None]; any other exception of that
    call propagates, and what the call returns is returned as the
    client gave it. *)
Theorem get_emissions_none_iff (oc : Client)
    (actor_id datasource_id : string) :
  jupyter oc = Return tt ->
  (get_emissions oc actor_id datasource_id = Return None <->
   emissions oc actor_id datasource_id = Raise ValueError \/
   emissions oc actor_id datasource_id = Return None) /\
  (forall e,
      emissions oc actor_id datasource_id = Raise e -> e <> ValueError ->
      get_emissions oc actor_id datasource_id = Raise e) /\
  (forall value,
      emissions oc actor_id datasource_id = Return value ->
      get_emissions oc actor_id datasource_id = Return value).
Proof.
  intros Hjupyter. unfold get_emissions. rewrite Hjupyter. cbn [bind].
  destruct (emissions oc actor_id datasource_id) as [value | e];
    cbn [try_except].
  - split; [ | split].
    + split; [intros Hnone; right; exact Hnone | ].
      intros [Hraise | Hnone]; [discriminate Hraise | exact Hnone].
    + intros e Hraise. discriminate Hraise.
    + intros value' Hvalue. exact Hvalue.
  - split; [ | split].
    + split.
      * destruct e; intros Hnone; try discriminate Hnone.
        left. reflexivity.
      * intros [Hraise | Hnone]; [ | discriminate Hnone].
        inversion Hraise. reflexivity.
    + intros e' Hraise Hne. inversion Hraise; subst e'.
      destruct e; try reflexivity. congruence.
    + intros value Hvalue. discriminate Hvalue.
Qed.

(** The client that knows nothing raises [ValueError], the client
    that returns [None] has it handed on, the client without a network
    raises another exception, and the sample client returns a table. *)
Lemma get_emissions_none_iff_witness :
  (jupyter empty_client = Return tt /\
   emissions empty_client "XX" "UNFCCC" = Raise ValueError /\
   get_emissions empty_client "XX" "UNFCCC" = Return None) /\
  (jupyter silent_client = Return tt /\
   emissions silent_client "CA" "UNFCCC" = Return None /\
   get_emissions silent_client "CA" "UNFCCC" = Return None) /\
  (jupyter offline_client = Return tt /\
   emissions offline_client "CA" "UNFCCC"
   = Raise (OtherError "ConnectionError") /\
   get_emissions offline_client "CA" "UNFCCC"
   = Raise (OtherError "ConnectionError")) /\
  (jupyter sample_client = Return tt /\
   get_emissions sample_client "CA" "UNFCCC"
   = Return (Some (one_row "CA" "UNFCCC" 2019 (lit 200)))).
Proof.
  split; [ | split; [ | split]].
  - split; [reflexivity | split; [reflexivity | ]].
    exact (proj2 (proj1 (get_emissions_none_iff empty_client
                           "XX" "UNFCCC" eq_refl))
             (or_introl eq_refl)).
  - split; [reflexivity | split; [reflexivity | ]].
    exact (proj2 (proj1 (get_emissions_none_iff silent_client
                           "CA" "UNFCCC" eq_refl))
             (or_intror eq_refl)).
  - split; [reflexivity | split; [reflexivity | ]].
    apply (proj1 (proj2 (get_emissions_none_iff offline_client
                           "CA" "UNFCCC" eq_refl))
             (OtherError "ConnectionError") eq_refl).
    discriminate.
  - split; [reflexivity | ].
    exact (proj2 (proj2 (get_emissions_none_iff sample_client
                           "CA" "UNFCCC" eq_refl)) _ eq_refl).
Defined.

(** ** C9: [actor_parts] and lookup failures *)

(** C9: when one of the client's two calls raises [AttributeError] or
    [KeyError], [actor_parts] prints its message and returns [None],
    and no exception escapes; when both calls return, the result is
    the rows of the search whose [actor_id] is the actor's, followed
    by the parts, re-indexed. *)
Theorem actor_parts_not_found (oc : Client) (actor_id part_type : string) :
  (forall e,
      lookup_failure e ->
      parts oc actor_id part_type = Raise e
      \/ (exists children, parts oc actor_id part_type = Return children)
         /\ search oc actor_id = Raise e ->
      actor_parts oc actor_id part_type
      = Return ([printed_for e actor_id part_type], None)) /\
  (forall children candidates,
      parts oc actor_id part_type = Return children ->
      search oc actor_id = Return candidates ->
      actor_parts oc actor_id part_type
      = Return ([],
          Some (loc_cols Actor.select
                  (loc_rows (fun x => String.eqb (Actor.actor_id x) actor_id)
                     candidates)
                ++ reset_index (loc_cols Actor.select children)))).
Proof.
  split.
  - intros e He Hraise. unfold actor_parts, actor_parts_try.
    destruct Hraise as [Hparts | [[children Hparts] Hsearch]].
    + rewrite Hparts. cbn [bind try_except].
      destruct He as [-> | ->]; reflexivity.
    + rewrite Hparts, Hsearch. cbn [bind try_except].
      destruct He as [-> | ->]; reflexivity.
  - intros children candidates Hparts Hsearch.
    unfold actor_parts, actor_parts_try. rewrite Hparts, Hsearch.
    cbn [bind try_except]. unfold pd_concat. cbn [List.concat].
    rewrite app_nil_r. reflexivity.
Qed.

(** An unknown actor, and Canada with its two parts. *)
Lemma actor_parts_not_found_witness :
  actor_parts empty_client "XX" part_type_default
  = Return ([not_found_message "XX"], None) /\
  actor_parts sample_client "CA" part_type_default
  = Return ([],
      Some [(0, {| Actor.sel_name := "Canada"; Actor.sel_actor_id := "CA" |});
            (0, {| Actor.sel_name := "Alberta";
                   Actor.sel_actor_id := "CA-AB" |});
            (1, {| Actor.sel_name := "Quebec";
                   Actor.sel_actor_id := "CA-QC" |})]).
Proof.
  split.
  - exact (proj1 (actor_parts_not_found empty_client "XX" part_type_default)
             AttributeError (or_introl eq_refl) (or_introl eq_refl)).
  - exact (proj2 (actor_parts_not_found sample_client "CA" part_type_default)
             _ _ eq_refl eq_refl).
Defined.

(** ** C10: an empty table is not a failed lookup *)

(** C10: when the client returns a table with no record of type
    'Absolute emission reduction' whose target year is the requested
    one, [get_target] returns the table of no row, not [None]; it
    returns [None] when the client raises. *)
Theorem get_target_empty_table (oc : Client) (actor_id : string) (year : Z)
    (data_id : option string) :
  (forall found,
      targets oc actor_id = Return found ->
      (forall i full, In (i, full) found ->
         Target.target_type full = Str absolute_emission_reduction ->
         Target.target_year full <> Int year) ->
      get_target oc actor_id year data_id = Some []) /\
  (forall e,
      targets oc actor_id = Raise e ->
      get_target oc actor_id year data_id = None).
Proof.
  split.
  - intros found Hfound Hnone.
    rewrite (get_target_returns _ _ _ _ found Hfound).
    assert (Hkept : kept found year = []).
    { unfold kept, loc_rows.
      destruct (filter _ found) as [ | [i full] rest] eqn:Hfilter;
        [reflexivity | ].
      exfalso.
      assert (Hin : In (i, full)
                (filter (fun ir : Z * Target.row =>
                   cell_eqb (Target.target_type (snd ir))
                     (Str absolute_emission_reduction)
                   && cell_eqb (Target.target_year (snd ir)) (Int year))
                   found))
        by (rewrite Hfilter; left; reflexivity).
      apply filter_In in Hin. destruct Hin as [Hin Hmask]. simpl in Hmask.
      apply andb_true_iff in Hmask. destruct Hmask as [Htype Hyear].
      apply cell_eqb_Str in Htype. apply cell_eqb_Int in Hyear.
      exact (Hnone i full Hin Htype Hyear). }
    rewrite Hkept. reflexivity.
  - intros e Hraise. unfold get_target, get_target_try.
    rewrite Hraise. reflexivity.
Qed.

(** The sample client has no absolute target for 2040; the client
    that knows nothing raises. *)
Lemma get_target_empty_table_witness :
  get_target sample_client "CA" 2040 None = Some [] /\
  get_target empty_client "CA" 2040 None = None.
Proof.
  split.
  - apply (proj1 (get_target_empty_table sample_client "CA" 2040 None)
             sample_targets eq_refl).
    intros i full Hin Htype Hyear.
    repeat (destruct Hin as [Hin | Hin];
            [inversion Hin; subst; discriminate | ]).
    exact Hin.
  - exact (proj2 (get_target_empty_table empty_client "CA" 2040 None)
             AttributeError eq_refl).
Defined.

(** * Further properties *)

(** ** Floats: exact steps *)

Lemma lit_finite (n : Z) :
  n <> 0 -> Z.abs n < 2 ^ (emax - 1) ->
  exists m e, lit n = S754_finite (n <? 0) m e.
Proof.
  intros Hn Hr. unfold lit, binary_normalize.
  destruct n as [ | p | p ]; [congruence | | ].
  - destruct (binary_round_int false p) as [_ Hfin]. apply Hfin.
    apply digits2_pos_le; [unfold emax; lia | exact Hr].
  - destruct (binary_round_int true p) as [_ Hfin]. apply Hfin.
    apply digits2_pos_le; [unfold emax; lia | exact Hr].
Qed.

Lemma zero_mul_lit (z : bool) (n : Z) :
  Z.abs n < 2 ^ (emax - 1) ->
  exists z', (S754_zero z * lit n)%b64 = S754_zero z'.
Proof.
  intros Hr. destruct (Z.eq_dec n 0) as [-> | Hn].
  - cbn. eauto.
  - destruct (lit_finite n Hn Hr) as (m & e & ->). cbn [SFmul]. eauto.
Qed.

Lemma float_of_int_cases (n : Z) :
  float_of_int n = Raise OverflowError \/ float_of_int n = Return (lit n).
Proof.
  unfold float_of_int. destruct (lit n); auto.
Qed.

Lemma float_truediv_int_cases (x : float) (n : Z) :
  n <> 0 ->
  truediv_int x n = Raise OverflowError \/
  truediv_int x n = Return (x / lit n)%b64.
Proof.
  intros Hn. unfold truediv_int. cbn [of_int float_Number truediv].
  destruct (float_of_int_cases n) as [Hover | Hconv]; rewrite ?Hover, ?Hconv.
  - left. reflexivity.
  - right. cbn [bind]. unfold float_truediv.
    rewrite (float_of_int_nonzero n (lit n) Hn Hconv). reflexivity.
Qed.

Lemma float_mul_int_cases (x : float) (n : Z) :
  mul_int x n = Raise OverflowError \/ mul_int x n = Return (x * lit n)%b64.
Proof.
  unfold mul_int. cbn [of_int float_Number mul].
  destruct (float_of_int_cases n) as [Hover | Hconv]; rewrite ?Hover, ?Hconv;
    [left | right]; reflexivity.
Qed.

Lemma digits2_pos_unique (p : positive) (k : Z) :
  2 ^ (k - 1) <= Zpos p < 2 ^ k -> Zpos (digits2_pos p) = k.
Proof.
  intros [Hlow Hup].
  assert (Hk : 0 < k).
  { destruct (Z_lt_le_dec 0 k) as [ | Hneg]; [assumption | exfalso].
    destruct (Z.eq_dec k 0) as [-> | Hk0]; [simpl in Hup; lia | ].
    rewrite (Z.pow_neg_r 2 k) in Hup by lia. lia. }
  pose proof (digits2_pos_le p k ltac:(lia) Hup) as Hle.
  pose proof (digits2_pos_upper p) as Hup'.
  assert (Hlt : 2 ^ (k - 1) < 2 ^ Zpos (digits2_pos p)) by lia.
  apply Z.pow_lt_mono_r_iff in Hlt; lia.
Qed.

(** Shifting out [n] zero digits is exact. *)
Lemma iter_shr_1_exact (n : positive) : forall m : Z,
  0 <= m ->
  iter_pos shr_1 n {| shr_m := m * 2 ^ Zpos n; shr_r := false; shr_s := false |}
  = {| shr_m := m; shr_r := false; shr_s := false |}.
Proof.
  assert (Hone : forall m : Z, 0 <= m ->
            shr_1 {| shr_m := m * 2; shr_r := false; shr_s := false |}
            = {| shr_m := m; shr_r := false; shr_s := false |}).
  { intros m Hm. destruct m as [ | q | q]; [reflexivity | | lia].
    replace (Zpos q * 2) with (Zpos (xO q)) by lia. reflexivity. }
  induction n as [n IH | n IH | ]; intros m Hm; cbn [iter_pos].
  - replace (m * 2 ^ Zpos n~1) with (m * 2 ^ Zpos n * 2 ^ Zpos n * 2).
    2:{ replace (Zpos n~1) with (Z.succ (Zpos n + Zpos n)) by lia.
        rewrite Z.pow_succ_r, Z.pow_add_r by lia. ring. }
    assert (0 < 2 ^ Zpos n) by (apply Z.pow_pos_nonneg; lia).
    rewrite Hone by nia. rewrite IH by nia. apply IH, Hm.
  - replace (m * 2 ^ Zpos n~0) with (m * 2 ^ Zpos n * 2 ^ Zpos n).
    2:{ replace (Zpos n~0) with (Zpos n + Zpos n) by lia.
        rewrite Z.pow_add_r by lia. ring. }
    assert (0 < 2 ^ Zpos n) by (apply Z.pow_pos_nonneg; lia).
    rewrite IH by nia. apply IH, Hm.
  - rewrite Z.pow_1_r. apply Hone, Hm.
Qed.

(** A canonical mantissa is left as it is by the rounding. *)
Lemma shr_fexp_canonical (m : positive) (e : Z) :
  canonical_mantissa prec emax m e = true ->
  shr_fexp prec emax (Zpos m) e loc_Exact
  = ({| shr_m := Zpos m; shr_r := false; shr_s := false |}, e).
Proof.
  unfold canonical_mantissa. intros Hcanon. apply Z.eqb_eq in Hcanon.
  unfold shr_fexp. simpl Zdigits2. rewrite Hcanon, Z.sub_diag. reflexivity.
Qed.

(** The product with 1 of a valid finite float is the float. *)
Lemma SFmul_one (s : bool) (m : positive) (e : Z) :
  bounded prec emax m e = true ->
  (S754_finite s m e * lit 1)%b64 = S754_finite s m e.
Proof.
  intros Hbounded. unfold bounded in Hbounded.
  apply andb_true_iff in Hbounded. destruct Hbounded as [Hcanon Hmax].
  change (lit 1) with (S754_finite false 4503599627370496 (-52)).
  cbn [SFmul]. rewrite xorb_false_r.
  unfold binary_round_aux.
  assert (Hfirst :
    shr_fexp prec emax (Zpos (m * 4503599627370496)) (e + -52) loc_Exact
    = ({| shr_m := Zpos m; shr_r := false; shr_s := false |}, e)).
  { pose proof Hcanon as Hc. unfold canonical_mantissa in Hc.
    apply Z.eqb_eq in Hc.
    pose proof (digits2_pos_lower m) as Hlow.
    pose proof (digits2_pos_upper m) as Hup.
    assert (Hd : 1 <= Zpos (digits2_pos m)) by lia.
    assert (Hdig : Zpos (digits2_pos (m * 4503599627370496))
                   = Zpos (digits2_pos m) + 52).
    { apply digits2_pos_unique. rewrite Pos2Z.inj_mul.
      change (Zpos 4503599627370496) with (2 ^ 52).
      replace (Zpos (digits2_pos m) + 52 - 1)
        with (Zpos (digits2_pos m) - 1 + 52) by lia.
      rewrite !Z.pow_add_r by lia. nia. }
    unfold shr_fexp. simpl Zdigits2. rewrite Hdig.
    replace (Zpos (digits2_pos m) + 52 + (e + -52))
      with (Zpos (digits2_pos m) + e) by lia.
    rewrite Hc.
    replace (e - (e + -52)) with 52 by lia.
    unfold shr. cbn [shr_record_of_loc].
    rewrite Pos2Z.inj_mul.
    change (Zpos 4503599627370496) with (2 ^ Zpos 52).
    rewrite iter_shr_1_exact by lia.
    f_equal. lia. }
  rewrite Hfirst. cbn [shr_m loc_of_shr_record round_nearest_even].
  rewrite (shr_fexp_canonical m e Hcanon). cbn [shr_m].
  rewrite Hmax. reflexivity.
Qed.

Lemma SFmul_one_valid (x : float) :
  valid_float x -> (x * lit 1)%b64 = x.
Proof.
  unfold valid_float. destruct x as [s | s | | s m e]; intros Hvalid.
  - cbn. rewrite xorb_false_r. reflexivity.
  - cbn. rewrite xorb_false_r. reflexivity.
  - reflexivity.
  - apply SFmul_one, Hvalid.
Qed.

Lemma SFsub_diag (s : bool) (m : positive) (e : Z) :
  (S754_finite s m e - S754_finite s m e)%b64 = S754_zero false.
Proof. cbn [SFsub]. rewrite Z.sub_diag. reflexivity. Qed.

(** ** [linear_equation] and [scaled_emissions]: errors *)

(** [linear_equation] on floats for years that differ, whatever their
    size. *)
Lemma linear_equation_float_cases (b t : Z) (e p : float) :
  t <> b ->
  let target := (e * (lit 1 - p / lit 100))%b64 in
  let slope := ((target - e) / lit (t - b))%b64 in
  let intercept := (e - slope * lit b)%b64 in
  linear_equation b e p t = Raise OverflowError \/
  linear_equation b e p t =
  Return {| slope := slope; intercept := intercept;
            target_emissions := target;
            equation := fun YEAR =>
              bind (mul_int slope YEAR)
                (fun at_year => Return (at_year + intercept)%b64) |}.
Proof.
  intros Htb. cbv zeta. unfold linear_equation.
  rewrite float_truediv_int_100. cbn [bind].
  rewrite float_int_sub_1. cbn [bind].
  match goal with |- context [truediv_int ?d (t - b)] =>
    destruct (float_truediv_int_cases d (t - b)) as [Hover | Hdiv];
      [lia | rewrite Hover | rewrite Hdiv] end.
  - left. reflexivity.
  - cbn [bind].
    match goal with |- context [mul_int ?s b] =>
      destruct (float_mul_int_cases s b) as [Hover | Hmul];
        [rewrite Hover | rewrite Hmul] end.
    + left. reflexivity.
    + right. reflexivity.
Qed.

Lemma linear_equation_float_same_year (b : Z) (e p : float) :
  linear_equation b e p b = Raise ZeroDivisionError.
Proof.
  unfold linear_equation.
  rewrite float_truediv_int_100. cbn [bind].
  rewrite float_int_sub_1. cbn [bind].
  rewrite Z.sub_diag, float_truediv_int_0. reflexivity.
Qed.

Lemma linear_equation_Fraction_same_year (b : Z) (e p : Fraction) :
  linear_equation b e p b = Raise ZeroDivisionError.
Proof.
  unfold linear_equation.
  rewrite Fraction_truediv_int by lia. cbn [bind].
  unfold int_sub at 1. cbn [of_int Fraction_Number bind sub mul].
  rewrite Z.sub_diag, Fraction_truediv_int_0. reflexivity.
Qed.

(** X1: on floats [linear_equation] raises [ZeroDivisionError] exactly
    when the two years are equal; for years that differ, of any size,
    it returns or raises [OverflowError], and it raises nothing
    else. *)
Theorem linear_equation_float_errors (b t : Z) (e p : float) :
  (linear_equation b e p t = Raise ZeroDivisionError <-> t = b) /\
  (t <> b ->
   linear_equation b e p t = Raise OverflowError \/
   exists r, linear_equation b e p t = Return r) /\
  (forall x, linear_equation b e p t = Raise x ->
     x = ZeroDivisionError \/ x = OverflowError).
Proof.
  assert (Hdiff : t <> b ->
            linear_equation b e p t = Raise OverflowError \/
            exists r, linear_equation b e p t = Return r).
  { intros Htb.
    destruct (linear_equation_float_cases b t e p Htb) as [Hover | Hret];
      [left; exact Hover | right; eexists; exact Hret]. }
  split; [ | split].
  - split; [ | intros ->; apply linear_equation_float_same_year].
    intros Hraise. destruct (Z.eq_dec t b) as [Heq | Hne]; [exact Heq | ].
    destruct (Hdiff Hne) as [Hover | [r Hr]]; congruence.
  - exact Hdiff.
  - intros x Hx. destruct (Z.eq_dec t b) as [Heq | Hne].
    + subst t. rewrite linear_equation_float_same_year in Hx.
      left. congruence.
    + destruct (Hdiff Hne) as [Hover | [r Hr]]; [right | ]; congruence.
Qed.

(** From 2019 to 2030 there is a result; to the year [2^1024] there is
    an [OverflowError]. *)
Lemma linear_equation_float_errors_witness :
  (2030 <> 2019 /\
   (linear_equation 2019 (lit 1000) (lit 43) 2030 = Raise OverflowError \/
    exists r, linear_equation 2019 (lit 1000) (lit 43) 2030 = Return r)) /\
  (linear_equation 2019 (lit 1000) (lit 43) (2 ^ 1024) = Raise OverflowError /\
   (OverflowError = ZeroDivisionError \/ OverflowError = OverflowError)).
Proof.
  assert (Hne : 2030 <> 2019) by discriminate.
  assert (Hover : linear_equation 2019 (lit 1000) (lit 43) (2 ^ 1024)
                  = Raise OverflowError) by (vm_compute; reflexivity).
  split.
  - split; [exact Hne | ].
    exact (proj1 (proj2 (linear_equation_float_errors 2019 2030
                           (lit 1000) (lit 43))) Hne).
  - split; [exact Hover | ].
    exact (proj2 (proj2 (linear_equation_float_errors 2019 (2 ^ 1024)
                           (lit 1000) (lit 43))) OverflowError Hover).
Defined.

(** X2: [scaled_emissions] raises [ZeroDivisionError] exactly when the
    two years are equal, whatever the scale year; on exact rationals
    it returns a value in every other case. *)
Theorem scaled_emissions_zero_division_iff (b t y : Z) :
  (forall e p : float,
      scaled_emissions b e p t y = Raise ZeroDivisionError <-> t = b) /\
  (forall e p : Fraction,
      (scaled_emissions b e p t y = Raise ZeroDivisionError <-> t = b) /\
      (t <> b -> exists v, scaled_emissions b e p t y = Return v)).
Proof.
  split.
  - intros e p. split.
    + intros Hraise. destruct (Z.eq_dec t b) as [Heq | Hne]; [exact Heq | ].
      exfalso. unfold scaled_emissions in Hraise.
      destruct (linear_equation_float_cases b t e p Hne) as [Hover | Hret];
        rewrite ?Hover, ?Hret in Hraise; cbn [bind equation] in Hraise;
        [discriminate Hraise | ].
      match type of Hraise with context [@mul_int ?F ?N ?s y] =>
        destruct (float_mul_int_cases s y) as [Hy | Hy];
          change (@mul_int F N s y) with (@mul_int float float_Number s y)
            in Hraise;
          rewrite Hy in Hraise end; discriminate Hraise.
    + intros ->. unfold scaled_emissions.
      rewrite linear_equation_float_same_year. reflexivity.
  - intros e p. split; [split | ].
    + intros Hraise. destruct (Z.eq_dec t b) as [Heq | Hne]; [exact Heq | ].
      rewrite scaled_emissions_Fraction in Hraise by assumption.
      discriminate Hraise.
    + intros ->. unfold scaled_emissions.
      rewrite linear_equation_Fraction_same_year. reflexivity.
    + intros Hne. eexists. apply scaled_emissions_Fraction, Hne.
Qed.

(** Equal years 2020 on floats; the years 2019 and 2030 on exact
    rationals. *)
Lemma scaled_emissions_zero_division_iff_witness :
  scaled_emissions 2020 (lit 100) (lit 50) 2020 2025
  = Raise ZeroDivisionError /\
  (2030 <> 2019 /\
   exists v,
     scaled_emissions 2019 (Fraction_of_int 1000) (Fraction_of_int 43)
       2030 2025 = Return v).
Proof.
  split.
  - exact (proj2 (proj1 (scaled_emissions_zero_division_iff 2020 2020 2025)
                    (lit 100) (lit 50)) eq_refl).
  - assert (Hne : 2030 <> 2019) by discriminate.
    split; [exact Hne | ].
    exact (proj2 (proj2 (scaled_emissions_zero_division_iff 2019 2030 2025)
                    (Fraction_of_int 1000) (Fraction_of_int 43)) Hne).
Defined.

(** ** A target of 0 percent *)

Lemma SFeqb_finite_refl (s : bool) (m : positive) (e : Z) :
  SFeqb (S754_finite s m e) (S754_finite s m e) = true.
Proof.
  unfold SFeqb. cbn [SFcompare].
  rewrite Z.compare_refl, Pos.compare_cont_refl. destruct s; reflexivity.
Qed.

(** The baseline -0.0 comes back as +0.0. *)
Lemma zero_percent_negative_zero :
  scaled_emissions 2019 (S754_zero true) (lit 0) 2030 2025
  = Return (S754_zero false).
Proof. vm_compute. reflexivity. Qed.

(** X3: on floats a target of 0 percent gives a flat line: for a
    baseline that is neither an infinity nor NaN, and years below
    [year_bound] in magnitude that differ, the target emissions are
    the baseline, the slope is a zero, and the intercept and
    [scaled_emissions] at every such year compare equal ([==]) to the
    baseline; they are the baseline bit for bit unless it is -0.0,
    whose sign may be lost. *)
Theorem zero_percent_flat_line (b t y : Z) (x : float) :
  t <> b -> Z.abs b < year_bound -> Z.abs t < year_bound ->
  Z.abs y < year_bound ->
  valid_float x -> is_finite x = true ->
  (exists r,
      linear_equation b x (lit 0) t = Return r /\
      target_emissions r = x /\
      is_zero (slope r) = true /\
      SFeqb (intercept r) x = true /\
      (x <> S754_zero true -> intercept r = x)) /\
  (exists v,
      scaled_emissions b x (lit 0) t y = Return v /\
      SFeqb v x = true /\
      (x <> S754_zero true -> v = x)).
Proof.
  intros Htb Hb Ht Hy Hvalid Hfinite. pose proof year_bound_double as Hdouble.
  assert (Htarget : (x * (lit 1 - lit 0 / lit 100))%b64 = x).
  { change (lit 1 - lit 0 / lit 100)%b64 with (lit 1).
    apply SFmul_one_valid, Hvalid. }
  destruct (lit_finite (t - b) ltac:(lia) ltac:(lia)) as (md & ed & Hd).
  assert (Hslope : ((x * (lit 1 - lit 0 / lit 100) - x) / lit (t - b))%b64
                   = S754_zero (t - b <? 0)).
  { rewrite Htarget, Hd.
    destruct x as [s | s | | s m ex]; try discriminate Hfinite.
    - destruct s; reflexivity.
    - rewrite SFsub_diag. reflexivity. }
  destruct (zero_mul_lit (t - b <? 0) b ltac:(lia)) as [z' Hz'].
  destruct (zero_mul_lit (t - b <? 0) y ltac:(lia)) as [z'' Hz''].
  split.
  - eexists. split; [apply linear_equation_float; assumption | ].
    cbn [target_emissions slope intercept].
    rewrite Hslope, Hz'.
    split; [exact Htarget | split; [reflexivity | ]].
    destruct x as [s | s | | s m ex]; try discriminate Hfinite.
    + destruct s, z'; split; try reflexivity; intros Hne;
        try reflexivity; exfalso; apply Hne; reflexivity.
    + split; [apply SFeqb_finite_refl | intros _; reflexivity].
  - rewrite scaled_emissions_float by assumption. cbv zeta.
    rewrite Hslope, Hz', Hz''. eexists. split; [reflexivity | ].
    destruct x as [s | s | | s m ex]; try discriminate Hfinite.
    + destruct s, z', z''; split; try reflexivity; intros Hne;
        try reflexivity; exfalso; apply Hne; reflexivity.
    + split; [apply SFeqb_finite_refl | intros _; reflexivity].
Qed.

(** 1000.1 tonnes (8796972631510221 * 2^-43) from 2019 to 2030, at
    2025; and the baseline -0.0, which comes back as a zero. *)
Lemma zero_percent_flat_line_witness :
  2030 <> 2019 /\ Z.abs 2019 < year_bound /\ Z.abs 2030 < year_bound /\
  Z.abs 2025 < year_bound /\
  (valid_float (S754_finite false 8796972631510221 (-43)) /\
   is_finite (S754_finite false 8796972631510221 (-43)) = true /\
   exists v,
     scaled_emissions 2019 (S754_finite false 8796972631510221 (-43))
       (lit 0) 2030 2025 = Return v /\
     SFeqb v (S754_finite false 8796972631510221 (-43)) = true /\
     (S754_finite false 8796972631510221 (-43) <> S754_zero true ->
      v = S754_finite false 8796972631510221 (-43))) /\
  (valid_float (S754_zero true) /\
   is_finite (S754_zero true) = true /\
   exists v,
     scaled_emissions 2019 (S754_zero true) (lit 0) 2030 2025 = Return v /\
     SFeqb v (S754_zero true) = true /\
     (S754_zero true <> S754_zero true -> v = S754_zero true)).
Proof.
  assert (Hne : 2030 <> 2019) by discriminate.
  assert (Hb : Z.abs 2019 < year_bound) by reflexivity.
  assert (Ht : Z.abs 2030 < year_bound) by reflexivity.
  assert (Hy : Z.abs 2025 < year_bound) by reflexivity.
  assert (Hv : valid_float (S754_finite false 8796972631510221 (-43)))
    by reflexivity.
  assert (Hf : is_finite (S754_finite false 8796972631510221 (-43)) = true)
    by reflexivity.
  assert (Hv0 : valid_float (S754_zero true)) by reflexivity.
  assert (Hf0 : is_finite (S754_zero true) = true) by reflexivity.
  split; [exact Hne | split; [exact Hb | split; [exact Ht | split;
    [exact Hy | split]]]].
  - split; [exact Hv | split; [exact Hf | ]].
    exact (proj2 (zero_percent_flat_line 2019 2030 2025
                    (S754_finite false 8796972631510221 (-43))
                    Hne Hb Ht Hy Hv Hf)).
  - split; [exact Hv0 | split; [exact Hf0 | ]].
    exact (proj2 (zero_percent_flat_line 2019 2030 2025 (S754_zero true)
                    Hne Hb Ht Hy Hv0 Hf0)).
Defined.

(** ** The line on exact rationals *)

Lemma Fraction_of_int_le (a b : Z) :
  a <= b -> (Fraction_of_int a <= Fraction_of_int b)%Qc.
Proof.
  intros Hab. unfold Qcle, Fraction_of_int, Q2Qc. cbn [this].
  rewrite !Qred_correct. rewrite <- Zle_Qle. exact Hab.
Qed.

Lemma Fraction_of_int_pos (n : Z) :
  0 < n -> (0 < Fraction_of_int n)%Qc.
Proof.
  intros Hn. unfold Qclt, Fraction_of_int, Q2Qc. cbn [this].
  rewrite !Qred_correct. change 0%Q with (inject_Z 0).
  rewrite <- Zlt_Qlt. exact Hn.
Qed.

Lemma Qcmult_nonneg (x y : Qc) : (0 <= x -> 0 <= y -> 0 <= x * y)%Qc.
Proof.
  intros Hx Hy. rewrite <- (Qcmult_0_l y).
  apply Qcmult_le_compat_r; assumption.
Qed.

Lemma Qcdiv_nonneg (x y : Qc) : (0 <= x -> 0 < y -> 0 <= x / y)%Qc.
Proof.
  intros Hx Hy. apply (Qcmult_lt_0_le_reg_r _ _ y Hy).
  rewrite Qcmult_0_l.
  replace (x / y * y)%Qc with x; [exact Hx | ].
  field. apply Qclt_not_eq in Hy. congruence.
Qed.

Lemma Qcsub_nonneg (x y : Qc) : (x <= y -> 0 <= y - x)%Qc.
Proof. intros Hxy. apply Qcle_minus_iff in Hxy. exact Hxy. Qed.

(** The closed form of the line on exact rationals. *)
Lemma scaled_emissions_closed_form (b t y : Z) (e p : Fraction) :
  t <> b ->
  scaled_emissions b e p t y
  = Return (e - e * (p / Fraction_of_int 100)
                * ((Fraction_of_int y - Fraction_of_int b)
                   / (Fraction_of_int t - Fraction_of_int b)))%Qc.
Proof.
  intros Htb. rewrite scaled_emissions_Fraction by assumption. cbv zeta.
  apply (f_equal (@Return Qc)).
  pose proof (Fraction_of_int_diff b t Htb) as Hd.
  pose proof (Fraction_of_int_nonzero 100 ltac:(lia)) as H100.
  field. split; assumption.
Qed.

Lemma Fraction_of_int_succ (y : Z) :
  Fraction_of_int (y + 1) = (Fraction_of_int y + 1)%Qc.
Proof.
  replace (y + 1) with (y - (-1)) by lia. rewrite Fraction_of_int_sub.
  apply Qc_is_canon. unfold Fraction_of_int, Qcminus, Qcplus, Qcopp, Q2Qc.
  cbn [this]. rewrite !Qred_correct. reflexivity.
Qed.

(** X5: in exact arithmetic the emissions at a year are the baseline
    less the share [p/100] of it times the part of the period that
    has passed, and they change by the same amount,
    [- e * (p/100) / (t - b)], from each year to the next. *)
Theorem scaled_emissions_constant_step (b t y : Z) (e p : Fraction) :
  t <> b ->
  exists v v',
    scaled_emissions b e p t y = Return v /\
    scaled_emissions b e p t (y + 1) = Return v' /\
    v = (e - e * (p / Fraction_of_int 100)
             * ((Fraction_of_int y - Fraction_of_int b)
                / (Fraction_of_int t - Fraction_of_int b)))%Qc /\
    (v' - v)%Qc
    = (- (e * (p / Fraction_of_int 100)
          / (Fraction_of_int t - Fraction_of_int b)))%Qc.
Proof.
  intros Htb. do 2 eexists.
  split; [apply scaled_emissions_closed_form, Htb | ].
  split; [apply scaled_emissions_closed_form, Htb | ].
  split; [reflexivity | ].
  rewrite Fraction_of_int_succ.
  pose proof (Fraction_of_int_diff b t Htb) as Hd.
  pose proof (Fraction_of_int_nonzero 100 ltac:(lia)) as H100.
  field. split; assumption.
Qed.

(** 1000 tonnes and 43 percent from 2019 to 2030, at 2025. *)
Lemma scaled_emissions_constant_step_witness :
  2030 <> 2019 /\
  exists v v',
    scaled_emissions 2019 (Fraction_of_int 1000) (Fraction_of_int 43) 2030
      2025 = Return v /\
    scaled_emissions 2019 (Fraction_of_int 1000) (Fraction_of_int 43) 2030
      (2025 + 1) = Return v' /\
    v = (Fraction_of_int 1000
         - Fraction_of_int 1000 * (Fraction_of_int 43 / Fraction_of_int 100)
           * ((Fraction_of_int 2025 - Fraction_of_int 2019)
              / (Fraction_of_int 2030 - Fraction_of_int 2019)))%Qc /\
    (v' - v)%Qc
    = (- (Fraction_of_int 1000 * (Fraction_of_int 43 / Fraction_of_int 100)
          / (Fraction_of_int 2030 - Fraction_of_int 2019)))%Qc.
Proof.
  assert (Hne : 2030 <> 2019) by discriminate.
  split; [exact Hne | ].
  exact (scaled_emissions_constant_step 2019 2030 2025
           (Fraction_of_int 1000) (Fraction_of_int 43) Hne).
Defined.

(** X6: in exact arithmetic, for a baseline and a percentage that are
    not negative and a target year after the baseline year, the
    emissions never rise from a year to a later one, and between the
    two years they stay between the target emissions and the
    baseline. *)
Theorem scaled_emissions_descends (b t : Z) (e p : Fraction) :
  b < t -> (0 <= e)%Qc -> (0 <= p)%Qc ->
  (forall y1 y2, y1 <= y2 ->
     exists v1 v2,
       scaled_emissions b e p t y1 = Return v1 /\
       scaled_emissions b e p t y2 = Return v2 /\
       (v2 <= v1)%Qc) /\
  (forall y, b <= y <= t ->
     exists v,
       scaled_emissions b e p t y = Return v /\
       (e * (1 - p / Fraction_of_int 100) <= v)%Qc /\ (v <= e)%Qc).
Proof.
  intros Hbt He Hp.
  set (B := Fraction_of_int b). set (T := Fraction_of_int t).
  set (H := Fraction_of_int 100).
  assert (HT : (0 < T - B)%Qc).
  { subst T B. rewrite <- Fraction_of_int_sub. apply Fraction_of_int_pos. lia. }
  assert (HH : (0 < H)%Qc) by (apply Fraction_of_int_pos; lia).
  assert (HTne : (T - B)%Qc <> 0%Qc) by (apply Qclt_not_eq in HT; congruence).
  assert (HHne : H <> 0%Qc) by (apply Qclt_not_eq in HH; congruence).
  assert (Hdiff : forall u v, u <= v ->
            (0 <= Fraction_of_int v - Fraction_of_int u)%Qc).
  { intros u v Huv. apply Qcsub_nonneg, Fraction_of_int_le, Huv. }
  assert (Hshare : (0 <= e * (p / H))%Qc)
    by (apply Qcmult_nonneg; [exact He | apply Qcdiv_nonneg; assumption]).
  split.
  - intros y1 y2 Hy. do 2 eexists.
    split; [apply scaled_emissions_closed_form; lia | ].
    split; [apply scaled_emissions_closed_form; lia | ].
    fold B T H. apply Qcle_minus_iff.
    replace (e - e * (p / H) * ((Fraction_of_int y1 - B) / (T - B))
             + - (e - e * (p / H) * ((Fraction_of_int y2 - B) / (T - B))))%Qc
      with (e * (p / H)
            * ((Fraction_of_int y2 - Fraction_of_int y1) / (T - B)))%Qc
      by (field; split; assumption).
    apply Qcmult_nonneg; [exact Hshare | ].
    apply Qcdiv_nonneg; [apply Hdiff, Hy | exact HT].
  - intros y [Hby Hyt]. eexists.
    split; [apply scaled_emissions_closed_form; lia | ].
    fold B T H. split; apply Qcle_minus_iff.
    + replace (e - e * (p / H) * ((Fraction_of_int y - B) / (T - B))
               + - (e * (1 - p / H)))%Qc
        with (e * (p / H) * ((T - Fraction_of_int y) / (T - B)))%Qc
        by (field; split; assumption).
      apply Qcmult_nonneg; [exact Hshare | ].
      apply Qcdiv_nonneg; [apply Hdiff, Hyt | exact HT].
    + replace (e + - (e - e * (p / H) * ((Fraction_of_int y - B) / (T - B))))%Qc
        with (e * (p / H) * ((Fraction_of_int y - B) / (T - B)))%Qc
        by (field; split; assumption).
      apply Qcmult_nonneg; [exact Hshare | ].
      apply Qcdiv_nonneg; [apply Hdiff, Hby | exact HT].
Qed.

(** 1000 tonnes and 43 percent from 2019 to 2030: 2035 after 2025, and
    2025 between the two years. *)
Lemma scaled_emissions_descends_witness :
  2019 < 2030 /\ (0 <= Fraction_of_int 1000)%Qc /\
  (0 <= Fraction_of_int 43)%Qc /\
  (exists v1 v2,
      scaled_emissions 2019 (Fraction_of_int 1000) (Fraction_of_int 43) 2030
        2025 = Return v1 /\
      scaled_emissions 2019 (Fraction_of_int 1000) (Fraction_of_int 43) 2030
        2035 = Return v2 /\
      (v2 <= v1)%Qc) /\
  (exists v,
      scaled_emissions 2019 (Fraction_of_int 1000) (Fraction_of_int 43) 2030
        2025 = Return v /\
      (Fraction_of_int 1000 * (1 - Fraction_of_int 43 / Fraction_of_int 100)
       <= v)%Qc /\
      (v <= Fraction_of_int 1000)%Qc).
Proof.
  assert (Hbt : 2019 < 2030) by reflexivity.
  assert (He : (0 <= Fraction_of_int 1000)%Qc) by discriminate.
  assert (Hp : (0 <= Fraction_of_int 43)%Qc) by discriminate.
  split; [exact Hbt | split; [exact He | split; [exact Hp | split]]].
  - apply (proj1 (scaled_emissions_descends 2019 2030
                    (Fraction_of_int 1000) (Fraction_of_int 43) Hbt He Hp)).
    discriminate.
  - apply (proj2 (scaled_emissions_descends 2019 2030
                    (Fraction_of_int 1000) (Fraction_of_int 43) Hbt He Hp)).
    split; discriminate.
Defined.

(** X16: in exact arithmetic the line of a sum of baselines is the sum
    of their lines: with one percentage, the emissions of two actors
    taken together are the sum of the emissions of each. *)
Theorem scaled_emissions_additive (b t y : Z) (e1 e2 p : Fraction) :
  t <> b ->
  exists v1 v2,
    scaled_emissions b e1 p t y = Return v1 /\
    scaled_emissions b e2 p t y = Return v2 /\
    scaled_emissions b (e1 + e2)%Qc p t y = Return (v1 + v2)%Qc.
Proof.
  intros Htb. do 2 eexists.
  split; [apply scaled_emissions_closed_form, Htb | ].
  split; [apply scaled_emissions_closed_form, Htb | ].
  rewrite scaled_emissions_closed_form by assumption.
  apply (f_equal (@Return Qc)).
  pose proof (Fraction_of_int_diff b t Htb) as Hd.
  pose proof (Fraction_of_int_nonzero 100 ltac:(lia)) as H100.
  field. split; assumption.
Qed.

(** 200 and 6000 tonnes, 43 percent from 2019 to 2030, at 2025. *)
Lemma scaled_emissions_additive_witness :
  2030 <> 2019 /\
  exists v1 v2,
    scaled_emissions 2019 (Fraction_of_int 200) (Fraction_of_int 43) 2030
      2025 = Return v1 /\
    scaled_emissions 2019 (Fraction_of_int 6000) (Fraction_of_int 43) 2030
      2025 = Return v2 /\
    scaled_emissions 2019 (Fraction_of_int 200 + Fraction_of_int 6000)%Qc
      (Fraction_of_int 43) 2030 2025 = Return (v1 + v2)%Qc.
Proof.
  assert (Hne : 2030 <> 2019) by discriminate.
  split; [exact Hne | ].
  exact (scaled_emissions_additive 2019 2030 2025 (Fraction_of_int 200)
           (Fraction_of_int 6000) (Fraction_of_int 43) Hne).
Defined.

(** ** [ipcc_range]: order of the rows, edges and ordering of the targets *)

Lemma filter_Permutation {A : Type} (keep : A -> bool) (rows rows' : list A)
    (Hperm : Permutation rows rows') :
  Permutation (filter keep rows) (filter keep rows').
Proof.
  induction Hperm as [ | a rest rest' Hrest IH | a a' rest
                     | rows1 rows2 rows3 H12 IH12 H23 IH23]; simpl.
  - constructor.
  - destruct (keep a); [constructor | ]; exact IH.
  - destruct (keep a), (keep a'); try reflexivity. constructor.
  - etransitivity; eassumption.
Qed.

(** X7: [ipcc_range] does not depend on the order of the rows of the
    table: a table with the same rows in another order gives the same
    dictionary, or the same error. *)
Theorem ipcc_range_row_order (F : Type) (N : Number F)
    (df df' : DataFrame (Emissions.row F))
    (actor_id : option string) (baseline_year : Z) (tv15 tv20 : F) :
  Permutation df df' ->
  ipcc_range df actor_id baseline_year tv15 tv20
  = ipcc_range df' actor_id baseline_year tv15 tv20.
Proof.
  intros Hperm. rewrite !ipcc_range_baseline.
  assert (Hrows : Permutation (baseline_rows df actor_id baseline_year)
                    (baseline_rows df' actor_id baseline_year))
    by (apply filter_Permutation, Hperm).
  destruct (baseline_rows df actor_id baseline_year) as [ | [i r] [ | ir rest]].
  - apply Permutation_nil in Hrows. rewrite Hrows. reflexivity.
  - apply Permutation_length_1_inv in Hrows. rewrite Hrows. reflexivity.
  - pose proof (Permutation_length Hrows) as Hlen.
    destruct (baseline_rows df' actor_id baseline_year)
      as [ | [i' r'] [ | ir' rest']]; try discriminate Hlen.
    reflexivity.
Qed.

(** Two actors in the two orders. *)
Lemma ipcc_range_row_order_witness :
  Permutation (two_actors (lit 200) (lit 6000))
    (two_actors_swapped (lit 200) (lit 6000)) /\
  ipcc_range (two_actors (lit 200) (lit 6000)) (Some "US"%string) 2019
    (lit 43) (lit 27)
  = ipcc_range (two_actors_swapped (lit 200) (lit 6000)) (Some "US"%string)
      2019 (lit 43) (lit 27).
Proof.
  assert (Hperm : Permutation (two_actors (lit 200) (lit 6000))
                    (two_actors_swapped (lit 200) (lit 6000)))
    by apply perm_swap.
  split; [exact Hperm | ].
  exact (ipcc_range_row_order float float_Number _ _ (Some "US"%string) 2019
           (lit 43) (lit 27) Hperm).
Defined.



(** X8: on floats the target emissions of [ipcc_range] and those of
    [linear_equation] called with the baseline and a target value of
    the dictionary are the same float, bit for bit. *)
Theorem ipcc_range_agrees_with_linear_equation
    (df : DataFrame (Emissions.row float)) (actor_id : option string)
    (b t : Z) (tv15 tv20 : float) (i : Z) (row : Emissions.row float) :
  baseline_rows df actor_id b = [(i, row)] ->
  t <> b -> Z.abs b < year_bound -> Z.abs t < year_bound ->
  exists d r15 r20,
    ipcc_range df actor_id b tv15 tv20 = Return d /\
    linear_equation (Ipcc.baseline_year d) (Emissions.total_emissions row)
      (Ipcc.target_value_1_5C d) t = Return r15 /\
    linear_equation (Ipcc.baseline_year d) (Emissions.total_emissions row)
      (Ipcc.target_value_2_0C d) t = Return r20 /\
    target_emissions r15 = Ipcc.target_emissions_1_5C d /\
    target_emissions r20 = Ipcc.target_emissions_2_0C d.
Proof.
  intros Hrows Htb Hb Ht.
  do 3 eexists.
  split.
  { rewrite ipcc_range_baseline, Hrows. cbn [bind].
    rewrite !float_truediv_int_100. cbn [bind].
    rewrite !float_int_sub_1. cbn [bind]. reflexivity. }
  cbn [Ipcc.baseline_year Ipcc.target_value_1_5C Ipcc.target_value_2_0C
       Ipcc.target_emissions_1_5C Ipcc.target_emissions_2_0C].
  split; [apply linear_equation_float; assumption | ].
  split; [apply linear_equation_float; assumption | ].
  split; reflexivity.
Qed.

(** 200 tonnes in 2019, the defaults, and the target year 2030. *)
Lemma ipcc_range_agrees_with_linear_equation_witness :
  2030 <> 2019 /\ Z.abs 2019 < year_bound /\ Z.abs 2030 < year_bound /\
  exists d r15 r20,
    ipcc_range (one_row "CA" "UNFCCC" 2019 (lit 200)) None 2019
      (lit 43) (lit 27) = Return d /\
    linear_equation (Ipcc.baseline_year d) (lit 200)
      (Ipcc.target_value_1_5C d) 2030 = Return r15 /\
    linear_equation (Ipcc.baseline_year d) (lit 200)
      (Ipcc.target_value_2_0C d) 2030 = Return r20 /\
    target_emissions r15 = Ipcc.target_emissions_1_5C d /\
    target_emissions r20 = Ipcc.target_emissions_2_0C d.
Proof.
  assert (Hne : 2030 <> 2019) by discriminate.
  assert (Hb : Z.abs 2019 < year_bound) by reflexivity.
  assert (Ht : Z.abs 2030 < year_bound) by reflexivity.
  split; [exact Hne | split; [exact Hb | split; [exact Ht | ]]].
  exact (ipcc_range_agrees_with_linear_equation
           (one_row "CA" "UNFCCC" 2019 (lit 200)) None 2019 2030
           (lit 43) (lit 27) 0
           {| Emissions.actor_id := "CA"; Emissions.year := 2019;
              Emissions.total_emissions := lit 200;
              Emissions.datasource_id := "UNFCCC" |}
           eq_refl Hne Hb Ht).
Defined.

(** X9: in exact arithmetic, for a baseline that is not negative and
    target values with [0 <= target_value20 <= target_value15 <= 100],
    the 1.5C target is not negative, is at most the 2.0C target, and
    the 2.0C target is at most the baseline. *)
Theorem ipcc_range_targets_ordered (df : DataFrame (Emissions.row Fraction))
    (actor_id : option string) (baseline_year : Z) (tv15 tv20 : Fraction)
    (i : Z) (r : Emissions.row Fraction) :
  baseline_rows df actor_id baseline_year = [(i, r)] ->
  (0 <= Emissions.total_emissions r)%Qc ->
  (0 <= tv20)%Qc -> (tv20 <= tv15)%Qc -> (tv15 <= Fraction_of_int 100)%Qc ->
  exists d,
    ipcc_range df actor_id baseline_year tv15 tv20 = Return d /\
    (0 <= Ipcc.target_emissions_1_5C d)%Qc /\
    (Ipcc.target_emissions_1_5C d <= Ipcc.target_emissions_2_0C d)%Qc /\
    (Ipcc.target_emissions_2_0C d <= Emissions.total_emissions r)%Qc.
Proof.
  intros Hrows HB H20 Hle H15.
  eexists. split.
  { rewrite ipcc_range_baseline, Hrows. cbn [bind].
    rewrite !Fraction_truediv_int by lia.
    cbn [bind int_sub of_int Fraction_Number sub mul]. reflexivity. }
  cbn [Ipcc.target_emissions_1_5C Ipcc.target_emissions_2_0C].
  set (B := Emissions.total_emissions r) in *.
  set (H := Fraction_of_int 100) in *.
  change (Fraction_of_int 1) with 1%Qc.
  assert (HH : (0 < H)%Qc) by (apply Fraction_of_int_pos; lia).
  assert (HHne : H <> 0%Qc) by (apply Qclt_not_eq in HH; congruence).
  split; [ | split].
  - replace (B * (1 - tv15 / H))%Qc with (B * ((H - tv15) / H))%Qc
      by (field; assumption).
    apply Qcmult_nonneg; [exact HB | ].
    apply Qcdiv_nonneg; [apply Qcsub_nonneg, H15 | exact HH].
  - apply Qcle_minus_iff.
    replace (B * (1 - tv20 / H) + - (B * (1 - tv15 / H)))%Qc
      with (B * ((tv15 - tv20) / H))%Qc by (field; assumption).
    apply Qcmult_nonneg; [exact HB | ].
    apply Qcdiv_nonneg; [apply Qcsub_nonneg, Hle | exact HH].
  - apply Qcle_minus_iff.
    replace (B + - (B * (1 - tv20 / H)))%Qc
      with (B * (tv20 / H))%Qc by (field; assumption).
    apply Qcmult_nonneg; [exact HB | ].
    apply Qcdiv_nonneg; assumption.
Qed.

(** 200 tonnes in 2019 and the defaults 43 and 27. *)
Lemma ipcc_range_targets_ordered_witness :
  (0 <= Fraction_of_int 200)%Qc /\ (0 <= Fraction_of_int 27)%Qc /\
  (Fraction_of_int 27 <= Fraction_of_int 43)%Qc /\
  (Fraction_of_int 43 <= Fraction_of_int 100)%Qc /\
  exists d,
    ipcc_range (one_row "CA" "UNFCCC" 2019 (Fraction_of_int 200)) None 2019
      (Fraction_of_int 43) (Fraction_of_int 27) = Return d /\
    (0 <= Ipcc.target_emissions_1_5C d)%Qc /\
    (Ipcc.target_emissions_1_5C d <= Ipcc.target_emissions_2_0C d)%Qc /\
    (Ipcc.target_emissions_2_0C d <= Fraction_of_int 200)%Qc.
Proof.
  assert (HB : (0 <= Fraction_of_int 200)%Qc) by discriminate.
  assert (H20 : (0 <= Fraction_of_int 27)%Qc) by discriminate.
  assert (Hle : (Fraction_of_int 27 <= Fraction_of_int 43)%Qc) by discriminate.
  assert (H15 : (Fraction_of_int 43 <= Fraction_of_int 100)%Qc)
    by discriminate.
  split; [exact HB | split; [exact H20 | split; [exact Hle | split;
    [exact H15 | ]]]].
  exact (ipcc_range_targets_ordered
           (one_row "CA" "UNFCCC" 2019 (Fraction_of_int 200)) None 2019
           (Fraction_of_int 43) (Fraction_of_int 27) 0
           {| Emissions.actor_id := "CA"; Emissions.year := 2019;
              Emissions.total_emissions := Fraction_of_int 200;
              Emissions.datasource_id := "UNFCCC" |}
           eq_refl HB H20 Hle H15).
Defined.

(** ** The lookup functions: what escapes, labels and order *)

(** X10: [get_emissions] returns [None] exactly when [client.jupyter]
    is read without error and the [emissions] call raises
    [ValueError] or returns [None]; an exception raised by reading
    [client.jupyter], [ValueError] included, escapes, as the property
    is read before the [try]. *)
Theorem get_emissions_jupyter_failure (oc : Client)
    (actor_id datasource_id : string) :
  (get_emissions oc actor_id datasource_id = Return None <->
   jupyter oc = Return tt /\
   (emissions oc actor_id datasource_id = Raise ValueError \/
    emissions oc actor_id datasource_id = Return None)) /\
  (forall e, jupyter oc = Raise e ->
     get_emissions oc actor_id datasource_id = Raise e).
Proof.
  unfold get_emissions. split.
  - destruct (jupyter oc) as [[] | e]; cbn [bind].
    + destruct (emissions oc actor_id datasource_id) as [value | e];
        cbn [try_except].
      * split; [intros Hnone; split; [reflexivity | right; exact Hnone] | ].
        intros [_ [Hraise | Hnone]]; [discriminate Hraise | exact Hnone].
      * split.
        -- destruct e; intros Hnone; try discriminate Hnone.
           split; [reflexivity | left; reflexivity].
        -- intros [_ [Hraise | Hnone]]; [ | discriminate Hnone].
           inversion Hraise. reflexivity.
    + split; [discriminate | intros [Hj _]; discriminate Hj].
  - intros e Hraise. rewrite Hraise. reflexivity.
Qed.

(** A client whose [jupyter] raises [ValueError]: the error escapes
    although the [emissions] call would return a table. *)
Lemma get_emissions_jupyter_failure_witness :
  jupyter no_jupyter_client = Raise ValueError /\
  get_emissions no_jupyter_client "CA" "UNFCCC" = Raise ValueError.
Proof.
  split; [reflexivity | ].
  exact (proj2 (get_emissions_jupyter_failure no_jupyter_client
                  "CA" "UNFCCC") ValueError eq_refl).
Defined.

(** X11: an exception of the client other than [AttributeError] and
    [KeyError], raised by the [parts] or by the [search] call, escapes
    from [actor_parts] unchanged. *)
Theorem actor_parts_other_exceptions (oc : Client)
    (actor_id part_type : string) (e : exn) :
  ~ lookup_failure e ->
  parts oc actor_id part_type = Raise e
  \/ (exists children, parts oc actor_id part_type = Return children)
     /\ search oc actor_id = Raise e ->
  actor_parts oc actor_id part_type = Raise e.
Proof.
  intros Hnot Hraise. unfold actor_parts, actor_parts_try.
  assert (Hhandled :
    match e with AttributeError | KeyError => true | _ => false end = false).
  { destruct e; try reflexivity; exfalso; apply Hnot; [left | right];
      reflexivity. }
  destruct Hraise as [Hparts | [[children Hparts] Hsearch]].
  - rewrite Hparts. cbn [bind try_except]. rewrite Hhandled. reflexivity.
  - rewrite Hparts, Hsearch. cbn [bind try_except]. rewrite Hhandled.
    reflexivity.
Qed.

(** The client without a network. *)
Lemma actor_parts_other_exceptions_witness :
  ~ lookup_failure (OtherError "ConnectionError") /\
  parts offline_client "CA" part_type_default
  = Raise (OtherError "ConnectionError") /\
  actor_parts offline_client "CA" part_type_default
  = Raise (OtherError "ConnectionError").
Proof.
  assert (Hnot : ~ lookup_failure (OtherError "ConnectionError"))
    by (intros [Hbad | Hbad]; discriminate Hbad).
  split; [exact Hnot | split; [reflexivity | ]].
  exact (actor_parts_other_exceptions offline_client "CA" part_type_default
           (OtherError "ConnectionError") Hnot (or_introl eq_refl)).
Defined.

Lemma combine_from {R : Type} (rows : list R) (start : nat) :
  map fst (combine (map Z.of_nat (seq start (List.length rows))) rows)
  = map Z.of_nat (seq start (List.length rows)) /\
  map snd (combine (map Z.of_nat (seq start (List.length rows))) rows) = rows.
Proof.
  revert start. induction rows as [ | r rows IH]; intros start; simpl.
  - split; reflexivity.
  - destruct (IH (S start)) as [Hfst Hsnd]. rewrite Hfst, Hsnd.
    split; reflexivity.
Qed.

(** After [reset_index] the labels count from 0 and the rows are as
    before. *)
Lemma reset_index_labels {R : Type} (df : DataFrame R) :
  map fst (reset_index df) = map Z.of_nat (seq 0 (List.length df)) /\
  map snd (reset_index df) = map snd df.
Proof.
  unfold reset_index.
  pose proof (combine_from (map snd df) 0) as Hc.
  rewrite length_map in Hc. exact Hc.
Qed.

Lemma actor_parts_returns (oc : Client) (actor_id part_type : string)
    (children candidates : DataFrame Actor.row) :
  parts oc actor_id part_type = Return children ->
  search oc actor_id = Return candidates ->
  actor_parts oc actor_id part_type
  = Return ([],
      Some (loc_cols Actor.select
              (loc_rows (fun x => String.eqb (Actor.actor_id x) actor_id)
                 candidates)
            ++ reset_index (loc_cols Actor.select children))).
Proof.
  intros Hparts Hsearch.
  unfold actor_parts, actor_parts_try. rewrite Hparts, Hsearch.
  cbn [bind try_except]. unfold pd_concat. cbn [List.concat].
  rewrite app_nil_r. reflexivity.
Qed.

(** X12: when both calls return, the table of [actor_parts] is made of
    the rows of the search whose [actor_id] is exactly the requested
    one, all of them and with their labels, followed by one row for
    each part, in the client's order, labelled 0, 1, 2, ...; when the
    search has no exact match the table holds the parts only. *)
Theorem actor_parts_rows (oc : Client) (actor_id part_type : string)
    (children candidates : DataFrame Actor.row) :
  parts oc actor_id part_type = Return children ->
  search oc actor_id = Return candidates ->
  exists own kids,
    actor_parts oc actor_id part_type = Return ([], Some (own ++ kids)) /\
    (forall i r, In (i, r) own ->
       Actor.sel_actor_id r = actor_id /\
       exists full, In (i, full) candidates /\ r = Actor.select full) /\
    (forall i full, In (i, full) candidates -> Actor.actor_id full = actor_id ->
       In (i, Actor.select full) own) /\
    ((forall i full, In (i, full) candidates ->
        Actor.actor_id full <> actor_id) -> own = []) /\
    map fst kids = map Z.of_nat (seq 0 (List.length children)) /\
    map snd kids = map Actor.select (map snd children).
Proof.
  intros Hparts Hsearch.
  exists (loc_cols Actor.select
            (loc_rows (fun x => String.eqb (Actor.actor_id x) actor_id)
               candidates)),
         (reset_index (loc_cols Actor.select children)).
  split; [apply actor_parts_returns; assumption | ].
  split; [ | split; [ | split]].
  - intros i r Hin. unfold loc_cols in Hin. apply in_map_iff in Hin.
    destruct Hin as ([j full] & Heq & Hin). simpl in Heq.
    inversion Heq; subst i r. clear Heq.
    apply filter_In in Hin. destruct Hin as [Hin Hmask]. simpl in Hmask.
    apply String.eqb_eq in Hmask.
    split; [exact Hmask | exists full; split; [exact Hin | reflexivity]].
  - intros i full Hin Hid. unfold loc_cols. apply in_map_iff.
    exists (i, full). split; [reflexivity | ].
    apply filter_In. split; [exact Hin | ].
    simpl. apply String.eqb_eq, Hid.
  - intros Hnone.
    destruct (loc_rows (fun x => String.eqb (Actor.actor_id x) actor_id)
                candidates) as [ | [i full] rest] eqn:Hrows; [reflexivity | ].
    exfalso.
    assert (Hin : In (i, full)
              (loc_rows (fun x => String.eqb (Actor.actor_id x) actor_id)
                 candidates)) by (rewrite Hrows; left; reflexivity).
    apply filter_In in Hin. destruct Hin as [Hin Hmask]. simpl in Hmask.
    apply String.eqb_eq in Hmask. exact (Hnone i full Hin Hmask).
  - destruct (reset_index_labels (loc_cols Actor.select children))
      as [Hfst Hsnd].
    rewrite Hfst, Hsnd. unfold loc_cols. rewrite length_map, map_map.
    split; [reflexivity | ].
    rewrite map_map. reflexivity.
Qed.

(** Canada and its two parts. *)
Lemma actor_parts_rows_witness :
  exists own kids,
    actor_parts sample_client "CA" part_type_default
    = Return ([], Some (own ++ kids)) /\
    (forall i r, In (i, r) own ->
       Actor.sel_actor_id r = "CA"%string /\
       exists full,
         In (i, full) [(0, sample_actor "Canada" "CA");
                       (1, sample_actor "Canada Bay" "AU-NSW-CB")] /\
         r = Actor.select full) /\
    (forall i full,
       In (i, full) [(0, sample_actor "Canada" "CA");
                     (1, sample_actor "Canada Bay" "AU-NSW-CB")] ->
       Actor.actor_id full = "CA"%string ->
       In (i, Actor.select full) own) /\
    ((forall i full,
        In (i, full) [(0, sample_actor "Canada" "CA");
                      (1, sample_actor "Canada Bay" "AU-NSW-CB")] ->
        Actor.actor_id full <> "CA"%string) -> own = []) /\
    map fst kids = map Z.of_nat (seq 0 2) /\
    map snd kids
    = map Actor.select
        [sample_actor "Alberta" "CA-AB"; sample_actor "Quebec" "CA-QC"].
Proof.
  exact (actor_parts_rows sample_client "CA" part_type_default
           [(7, sample_actor "Alberta" "CA-AB");
            (9, sample_actor "Quebec" "CA-QC")]
           [(0, sample_actor "Canada" "CA");
            (1, sample_actor "Canada Bay" "AU-NSW-CB")]
           eq_refl eq_refl).
Defined.





Section DropDuplicatesOrder.
Context {R : Type} (R_eq_dec : forall a b : R, {a = b} + {a <> b}).



End DropDuplicatesOrder.

Lemma kept_In (found : DataFrame Target.row) (year : Z) (j : Z)
    (full : Target.row) :
  In (j, full) (kept found year) <->
  In (j, full) found /\
  Target.target_type full = Str absolute_emission_reduction /\
  Target.target_year full = Int year.
Proof.
  unfold kept, loc_rows. rewrite filter_In. cbn [snd].
  rewrite andb_true_iff, cell_eqb_Str, cell_eqb_Int. tauto.
Qed.



(** X15: when the client's records of the requested year and type all
    have the same five output values, as when several data sources
    report one target, [get_target] returns exactly one row. *)
Theorem get_target_single_row (oc : Client) (actor_id : string) (year : Z)
    (data_id : option string) (found : DataFrame Target.row)
    (i : Z) (first : Target.row) :
  targets oc actor_id = Return found ->
  In (i, first) found ->
  Target.target_type first = Str absolute_emission_reduction ->
  Target.target_year first = Int year ->
  (forall j full, In (j, full) found ->
     Target.target_type full = Str absolute_emission_reduction ->
     Target.target_year full = Int year ->
     Target.cols_out (Target.select full)
     = Target.cols_out (Target.select first)) ->
  exists k,
    get_target oc actor_id year data_id
    = Some [(k, Target.cols_out (Target.select first))].
Proof.
  intros Hfound Hin Htype Hyear Hagree.
  rewrite (get_target_returns oc actor_id year data_id found Hfound).
  set (rows := loc_cols (fun x => Target.cols_out (Target.select x))
                 (kept found year)).
  assert (Hall : forall jr, In jr rows ->
            snd jr = Target.cols_out (Target.select first)).
  { intros [j r] Hjr. unfold rows, loc_cols in Hjr. apply in_map_iff in Hjr.
    destruct Hjr as ([j' full] & Heq & Hfull). simpl in Heq.
    inversion Heq; subst j r. clear Heq.
    apply kept_In in Hfull. destruct Hfull as (Hfull & Ht & Hy).
    simpl. apply (Hagree j' full); assumption. }
  assert (Hne : In (i, Target.cols_out (Target.select first)) rows).
  { unfold rows, loc_cols. apply in_map_iff. exists (i, first).
    split; [reflexivity | ]. apply kept_In. auto. }
  destruct rows as [ | [k r] rest]; [contradiction | ].
  assert (Hr : r = Target.cols_out (Target.select first))
    by exact (Hall (k, r) (or_introl eq_refl)).
  subst r. exists k. simpl. f_equal. f_equal.
  assert (Hrest : forall jr, In jr (drop_duplicates Target.out_eq_dec rest) ->
            snd jr = Target.cols_out (Target.select first)).
  { intros jr Hjr. apply Hall. right.
    apply (drop_duplicates_In Target.out_eq_dec), Hjr. }
  induction (drop_duplicates Target.out_eq_dec rest) as [ | jr more IH];
    [reflexivity | ].
  simpl. rewrite (Hrest jr (or_introl eq_refl)).
  destruct (Target.out_eq_dec _ _) as [ | Hdiff]; [ | congruence].
  apply IH. intros x Hx. apply Hrest. right. exact Hx.
Qed.

(** The two records of 2030 of the sample client are equal. *)
Lemma get_target_single_row_witness :
  exists k,
    get_target sample_client "CA" year_default None
    = Some [(k, Target.cols_out
                  (Target.select
                     (sample_target "Absolute emission reduction" 2030 40)))].
Proof.
  apply (get_target_single_row sample_client "CA" year_default None
           sample_targets 0
           (sample_target "Absolute emission reduction" 2030 40)).
  - reflexivity.
  - left. reflexivity.
  - reflexivity.
  - reflexivity.
  - intros j full Hin Htype Hyear.
    repeat (destruct Hin as [Hin | Hin];
            [inversion Hin; subst; first [reflexivity | discriminate] | ]).
    contradiction.
Defined.
